(** * The worker dispatch pipeline of postmangovsg

    A shallow embedding of the two message-worker classes
    ([worker/src/core/loaders/message-worker/sms.class.ts] and
    [email.class.ts]) and of the callback state machine exercised by
    [backend/src/sms/routes/tests/sms-callback.routes.test.ts].

    Promises are modelled as computations over an explicit [World]: the
    database behind the sequelize connection (committed tables and the tables
    of the open transaction), the database clock, the outbound traffic
    handed to the transports and the log.  A promise that resolves is
    [Resolved], one that rejects is [Rejected] with the error it carries.
    What the classes import from libraries and services (stored procedures,
    the template client, the phone-number service, the gateway clients, ...)
    is a field of [Environment].  The email worker's contact-preference
    helper and the callback ingestor belong to the repository but are not
    among the sources at hand; they are modelled from the specification and
    marked as such. *)

From Stdlib Require Import ZArith List String Ascii Bool Lia DecimalString.
From Stdlib Require Import Decimal DecimalPos DecimalZ.
Import ListNotations.

Local Open Scope string_scope.
Local Open Scope Z_scope.

(** ** Errors, results and strings *)

(** A JavaScript [Error]: the model keeps its [message]. *)
Record Error : Type := mkError { message : string }.

Inductive Result (A : Type) : Type :=
| Resolved (a : A)
| Rejected (e : Error).
Arguments Resolved {A} a.
Arguments Rejected {A} e.

Definition isResolved {A : Type} (r : Result A) : bool :=
  match r with Resolved _ => true | Rejected _ => false end.

(** [s.substring(0, n)] *)
Definition substring0 (n : nat) (s : string) : string := String.substring 0 n s.

(** [s.endsWith(suffix)] *)
Definition endsWith (s suffix : string) : bool :=
  let ls := String.length s in
  let lf := String.length suffix in
  if (lf <=? ls)%nat
  then String.eqb (String.substring (ls - lf) lf s) suffix
  else false.

(** [String(n)] and [n.toString()] for an integer. *)
Definition toString (n : Z) : string := NilZero.string_of_int (Z.to_int n).

(** [s.split(',')], for a one-character separator. *)
Fixpoint split_aux (sep : ascii) (s : string) (cur : string) : list string :=
  match s with
  | EmptyString => [cur]
  | String c rest =>
      if Ascii.eqb c sep
      then cur :: split_aux sep rest EmptyString
      else split_aux sep rest (cur ++ String c EmptyString)
  end.

Definition split (sep : ascii) (s : string) : list string :=
  split_aux sep s EmptyString.

(** Truthiness of a string and of an optional string. *)
Definition truthy (s : string) : bool := negb (String.eqb s EmptyString).

Definition truthy_opt (s : option string) : bool :=
  match s with Some v => truthy v | None => false end.

(** [{ [key: string]: string }] *)
Definition Params : Type := list (string * string).

Fixpoint param (key : string) (ps : Params) : option string :=
  match ps with
  | [] => None
  | (k, v) :: rest => if String.eqb k key then Some v else param key rest
  end.

(** ** Persisted state *)

Inductive Status : Type := UNSENT | SENDING | SENT | DELIVERED | ERROR.

(** A row of [sms_ops] / [email_ops]: the per-recipient MessageRecord. *)
Record MessageRecord : Type := mkRecord {
  rec_id : Z;
  rec_campaign_id : Z;
  rec_recipient : string;
  rec_status : Status;
  rec_message_id : option string;
  rec_error_code : option string;
  rec_delivered_at : option Z;
  rec_updated_at : option Z
}.

Record UserRow : Type := mkUser { user_id : Z; user_email : string }.
Record CampaignRow : Type := mkCampaign { campaign_id : Z; campaign_user_id : Z }.
Record StatisticsRow : Type := mkStatistics {
  stat_campaign_id : Z;
  stat_unsent : Z;
  stat_invalid : Z
}.

Record Tables : Type := mkTables {
  sms_ops : list MessageRecord;
  email_ops : list MessageRecord;
  users : list UserRow;
  campaigns : list CampaignRow;
  statistics : list StatisticsRow
}.

(** What [get_messages_to_send_sms] yields for one message. *)
Record SmsMessage : Type := mkSmsMessage {
  sms_id : Z;
  sms_recipient : string;
  sms_params : Params;
  sms_body : string;
  sms_campaignId : Z
}.

(** The [Message] of [./interface], as the email worker uses it. *)
Record Message : Type := mkMessage {
  id : Z;
  recipient : string;
  params : Params;
  body : string;
  subject : option string;
  replyTo : option string;
  from : option string;
  campaignId : option Z;
  agencyName : option string;
  agencyLogoURI : option string;
  senderEmail : string;
  showMasthead : option bool;
  contactPrefLink : option string
}.

(** Result rows as sequelize hands them back: one column per row. *)
Record SmsResultRow : Type :=
  mkSmsResultRow { get_messages_to_send_sms_col : SmsMessage }.
Record EmailResultRow : Type :=
  mkEmailResultRow { row_message : Message }.
Record OwnerEmailRow : Type :=
  mkOwnerEmailRow { email : string }.

(** ** Transports and clients *)

Record TwilioCredentials : Type := mkTwilioCredentials {
  accountSid : string;
  apiKey : string;
  apiSecret : string;
  messagingServiceSid : string
}.

(** [TwilioClient | SnsSmsClient] *)
Inductive SmsClient : Type :=
| TwilioClient (credentials : TwilioCredentials)
| SnsSmsClient.

Record MailToSend : Type := mkMail {
  mail_from : string;
  mail_recipients : list string;
  mail_subject : string;
  mail_body : string;
  mail_messageId : string;
  mail_unsubLink : string;
  mail_bcc : option (list string);
  mail_replyTo : option string
}.

Record MailCredentials : Type := mkMailCredentials {
  host : string;
  port : Z;
  auth_user : string;
  auth_pass : string
}.

(** The arguments [new MailClient(...)] is built from. *)
Record MailClient : Type := mkMailClient {
  mc_credentials : MailCredentials;
  mc_callbackHashSecret : string;
  mc_defaultFrom : option string;
  mc_configurationSet : string
}.

Record ThemedEmailInput : Type := mkThemedEmailInput {
  te_body : string;
  te_unsubLink : string;
  te_agencyName : option string;
  te_agencyLogoURI : option string;
  te_showMasthead : option bool;
  te_contactPrefLink : option string
}.

Record URL : Type := mkURL {
  url_href : string;
  url_searchParams : list (string * string)
}.

Inductive XssOption : Type := XSS_SMS_OPTION | XSS_EMAIL_OPTION.

(** ** Statements sent through [connection.query] *)

Inductive Statement : Type :=
| SelectEnqueueMessagesSms (job_id : Z)
| SelectUpdateStatsSms (campaign : Z)
| SelectEnqueueMessagesEmail (job_id : Z)
| SelectUpdateStatsEmailWithRead (campaign : Z)
| SelectGetMessagesToSendSms (job_id rate : Z)
| SelectGetMessagesToSendEmailWithAgency (job_id rate : Z)
| SelectCampaignOwnerEmail (campaign : option Z)
| UpdateSmsOpsSending (row : Z) (messageId : option string)
| UpdateSmsOpsError (row : Z) (error : string)
| UpdateEmailOpsSending (row : Z)
| UpdateEmailOpsError (row : Z) (error : string).

Inductive QueryResult : Type :=
| NoRows
| SmsRows (rows : list SmsResultRow)
| EmailRows (rows : list EmailResultRow)
| OwnerEmailRows (rows : list OwnerEmailRow).

(** ** Configuration ([config.get]) *)

Record Config : Type := mkConfig {
  defaultCountry : string;
  smsFallback_activate : bool;
  emailFallback_activate : bool;
  phonebookContactPref_enabled : bool;
  showMastheadDomain : string;
  mailFrom : string;
  mailOptions : MailCredentials;
  mailOptions_callbackHashSecret : string;
  mailConfigurationSet : string;
  unsubscribeHmac_version : string;
  unsubscribeHmac_algo : string -> string;
  unsubscribeHmac_key : string -> string;
  unsubscribeUrl : string
}.

(** ** The world a worker runs in *)

Inductive Outbound : Type :=
| SmsSend (client : SmsClient) (msg : Z) (to text : string) (campaign : option Z)
| MailSend (client : MailClient) (mail : MailToSend).

Inductive LogEntry : Type :=
| LogInfo (msg workerId : string) (ref : Z) (action : string)
| LogError (msg : string) (error : Error) (workerId : string).

(** The handle [connection.transaction] passes to its callback. *)
Inductive Transaction : Type := TransactionHandle.

Record World : Type := mkWorld {
  committed : Tables;
  inTransaction : option Tables;
  clock : Z;
  outbox : list Outbound;
  logs : list LogEntry
}.

(** Everything imported from outside the two worker classes. *)
Record Environment : Type := mkEnvironment {
  (* the query layer and the database: the statements they refuse (the query
     layer before the statement is sent, the database when it runs it), and
     the stored procedures *)
  db_fault : Statement -> option Error;
  enqueue_messages_sms : Z -> Tables -> Result Tables;
  update_stats_sms : Z -> Tables -> Result Tables;
  enqueue_messages_email : Z -> Tables -> Result Tables;
  update_stats_email_with_read : Z -> Tables -> Result Tables;
  get_messages_to_send_sms : Z -> Z -> Tables -> Result (list SmsMessage * Tables);
  get_messages_to_send_email_with_agency :
    Z -> Z -> Tables -> Result (list Message * Tables);
  (* services and libraries *)
  getTwilioCredentials : string -> Result TwilioCredentials;
  normalisePhoneNumber : string -> string -> Result string;
  isEmail : string -> bool;
  template : XssOption -> option string -> Params -> Result string;
  smsClient_send : SmsClient -> Z -> string -> string -> option Z -> Result string;
  sendMail : MailClient -> MailToSend -> Result string;
  generateThemedHTMLEmail : ThemedEmailInput -> Result string;
  (* crypto.createHmac(algo, key).update(data).digest('hex'); it throws for a
     digest the platform does not know and for a key it cannot use *)
  createHmac : string -> string -> string -> Result string;
  newURL : string -> string -> Result URL;
  url_toString : URL -> string;
  (* ./util/contact-preference *)
  getMessagesWithContactPrefLinks :
    list SmsMessage -> Z -> string -> Result (list SmsMessage);
  (* the external contact-preference service, as the email helper calls it:
     recipients, campaign id and owner email to recipient-keyed links *)
  generate_pref_links :
    list string -> option Z -> string -> Result (list (string * string))
}.

(** ** Promises over the world *)

Definition Async (A : Type) : Type := World -> Result A * World.

Definition resolve {A : Type} (a : A) : Async A := fun w => (Resolved a, w).
Definition reject {A : Type} (e : Error) : Async A := fun w => (Rejected e, w).

(** [p.then(k)], and [await p; k]. *)
Definition andThen {A B : Type} (p : Async A) (k : A -> Async B) : Async B :=
  fun w =>
    match p w with
    | (Resolved a, w') => k a w'
    | (Rejected e, w') => (Rejected e, w')
    end.

(** [p.catch(h)], and [try { p } catch (error) { h }]. *)
Definition catch {A : Type} (p : Async A) (h : Error -> Async A) : Async A :=
  fun w =>
    match p w with
    | (Resolved a, w') => (Resolved a, w')
    | (Rejected e, w') => h e w'
    end.

(** A synchronous call that may throw. *)
Definition lift {A : Type} (r : Result A) : Async A := fun w => (r, w).

Declare Scope async_scope.
Delimit Scope async_scope with async.
Notation "x <- p ;; k" := (andThen p (fun x => k))
  (at level 61, p at next level, right associativity) : async_scope.
Notation "p ;;; k" := (andThen p (fun _ => k))
  (at level 61, right associativity) : async_scope.
Local Open Scope async_scope.

Definition logger (entry : LogEntry) : Async unit :=
  fun w =>
    (Resolved tt,
     mkWorld (committed w) (inTransaction w) (clock w) (outbox w)
             (logs w ++ [entry])).

Definition dispatch (o : Outbound) : Async unit :=
  fun w =>
    (Resolved tt,
     mkWorld (committed w) (inTransaction w) (clock w) (outbox w ++ [o])
             (logs w)).

(** ** The database *)

(** [UPDATE ... WHERE id=:id] over one ops table. *)
Definition update_where (row : Z) (f : MessageRecord -> MessageRecord)
    (rows : list MessageRecord) : list MessageRecord :=
  map (fun r => if Z.eqb (rec_id r) row then f r else r) rows.

(** [SET status='SENDING', delivered_at=clock_timestamp(),
     message_id=:messageId, updated_at=clock_timestamp()] *)
Definition set_sms_sending (now : Z) (messageId : option string)
    (r : MessageRecord) : MessageRecord :=
  mkRecord (rec_id r) (rec_campaign_id r) (rec_recipient r) SENDING
           messageId (rec_error_code r) (Some now) (Some now).

(** [SET status='SENDING', delivered_at=clock_timestamp(),
     updated_at=clock_timestamp()] *)
Definition set_email_sending (now : Z) (r : MessageRecord) : MessageRecord :=
  mkRecord (rec_id r) (rec_campaign_id r) (rec_recipient r) SENDING
           (rec_message_id r) (rec_error_code r) (Some now) (Some now).

(** [SET status='ERROR', delivered_at=clock_timestamp(), error_code=:error,
     updated_at=clock_timestamp()] *)
Definition set_error (now : Z) (error : string) (r : MessageRecord)
    : MessageRecord :=
  mkRecord (rec_id r) (rec_campaign_id r) (rec_recipient r) ERROR
           (rec_message_id r) (Some error) (Some now) (Some now).

Definition with_sms_ops (t : Tables) (rows : list MessageRecord) : Tables :=
  mkTables rows (email_ops t) (users t) (campaigns t) (statistics t).

Definition with_email_ops (t : Tables) (rows : list MessageRecord) : Tables :=
  mkTables (sms_ops t) rows (users t) (campaigns t) (statistics t).

(** [c.id = :campaignId]; nothing equals a missing value. *)
Definition is_campaign (campaign : option Z) (c : CampaignRow) : bool :=
  match campaign with
  | Some wanted => Z.eqb (campaign_id c) wanted
  | None => false
  end.

(** [select u.email as email from users u where u.id =
     (select c.user_id from campaigns c where c.id = :campaignId)] *)
Definition select_owner_email (campaign : option Z) (t : Tables)
    : Result (list OwnerEmailRow) :=
  match filter (is_campaign campaign) (campaigns t) with
  | [] => Resolved []
  | [c] =>
      Resolved
        (map (fun u => mkOwnerEmailRow (user_email u))
             (filter (fun u => Z.eqb (user_id u) (campaign_user_id c))
                     (users t)))
  | _ =>
      Rejected
        (mkError "more than one row returned by a subquery used as an expression")
  end.

Definition procedure (r : Result Tables) : Result (QueryResult * Tables) :=
  match r with
  | Resolved t' => Resolved (NoRows, t')
  | Rejected e => Rejected e
  end.

(** One statement against one version of the tables, at database time [now]. *)
Definition exec (env : Environment) (now : Z) (s : Statement) (t : Tables)
    : Result (QueryResult * Tables) :=
  match db_fault env s with
  | Some e => Rejected e
  | None =>
      match s with
      | SelectEnqueueMessagesSms job => procedure (enqueue_messages_sms env job t)
      | SelectUpdateStatsSms c => procedure (update_stats_sms env c t)
      | SelectEnqueueMessagesEmail job =>
          procedure (enqueue_messages_email env job t)
      | SelectUpdateStatsEmailWithRead c =>
          procedure (update_stats_email_with_read env c t)
      | SelectGetMessagesToSendSms job rate =>
          match get_messages_to_send_sms env job rate t with
          | Resolved (ms, t') => Resolved (SmsRows (map mkSmsResultRow ms), t')
          | Rejected e => Rejected e
          end
      | SelectGetMessagesToSendEmailWithAgency job rate =>
          match get_messages_to_send_email_with_agency env job rate t with
          | Resolved (ms, t') => Resolved (EmailRows (map mkEmailResultRow ms), t')
          | Rejected e => Rejected e
          end
      | SelectCampaignOwnerEmail c =>
          match select_owner_email c t with
          | Resolved rows => Resolved (OwnerEmailRows rows, t)
          | Rejected e => Rejected e
          end
      | UpdateSmsOpsSending row messageId =>
          Resolved
            (NoRows,
             with_sms_ops t
               (update_where row (set_sms_sending now messageId) (sms_ops t)))
      | UpdateSmsOpsError row error =>
          Resolved
            (NoRows,
             with_sms_ops t (update_where row (set_error now error) (sms_ops t)))
      | UpdateEmailOpsSending row =>
          Resolved
            (NoRows,
             with_email_ops t
               (update_where row (set_email_sending now) (email_ops t)))
      | UpdateEmailOpsError row error =>
          Resolved
            (NoRows,
             with_email_ops t
               (update_where row (set_error now error) (email_ops t)))
      end
  end.

(** [connection.query(sql, { replacements, transaction })].  Without a
    transaction the statement commits on its own; with one it works on the
    tables of the open transaction.  Every call takes one tick of the
    database clock, whether the statement goes through or is refused. *)
Definition query (env : Environment) (s : Statement)
    (transaction : option Transaction) : Async QueryResult :=
  fun w =>
    match transaction with
    | None =>
        match exec env (clock w) s (committed w) with
        | Resolved (rows, t') =>
            (Resolved rows,
             mkWorld t' (inTransaction w) (clock w + 1) (outbox w) (logs w))
        | Rejected e =>
            (Rejected e,
             mkWorld (committed w) (inTransaction w) (clock w + 1) (outbox w)
                     (logs w))
        end
    | Some _ =>
        match inTransaction w with
        | None => (Rejected (mkError "no transaction is open"), w)
        | Some t =>
            match exec env (clock w) s t with
            | Resolved (rows, t') =>
                (Resolved rows,
                 mkWorld (committed w) (Some t') (clock w + 1) (outbox w)
                         (logs w))
            | Rejected e =>
                (Rejected e,
                 mkWorld (committed w) (Some t) (clock w + 1) (outbox w)
                         (logs w))
            end
        end
    end.

(** [connection.transaction(callback)]: BEGIN, run the callback with the
    handle, COMMIT when it resolves and ROLLBACK when it rejects. *)
Definition transaction {A : Type} (callback : Transaction -> Async A)
    : Async A :=
  fun w =>
    let begun :=
      mkWorld (committed w) (Some (committed w)) (clock w) (outbox w) (logs w) in
    match callback TransactionHandle begun with
    | (Resolved a, w') =>
        (Resolved a,
         mkWorld (match inTransaction w' with
                  | Some t => t
                  | None => committed w'
                  end)
                 None (clock w') (outbox w') (logs w'))
    | (Rejected e, w') =>
        (Rejected e,
         mkWorld (committed w') None (clock w') (outbox w') (logs w'))
    end.

(** [map(dbResults, 'get_messages_to_send_sms')] and the cast of
    [query<EmailResultRow>]. *)
Definition smsRows (q : QueryResult) : list SmsResultRow :=
  match q with SmsRows rows => rows | _ => [] end.

Definition emailRows (q : QueryResult) : list EmailResultRow :=
  match q with EmailRows rows => rows | _ => [] end.

Definition ownerEmailRows (q : QueryResult) : list OwnerEmailRow :=
  match q with OwnerEmailRows rows => rows | _ => [] end.

(** ** The SMS worker ([sms.class.ts]) *)

Module SMS.

Record t : Type := mk {
  workerId : string;
  smsClient : option SmsClient
}.

(** [constructor(workerId, connection)] *)
Definition new (workerId : string) : t := mk workerId None.

Definition enqueueMessages (env : Environment) (self : t)
    (jobId campaignId : Z) : Async unit :=
  transaction (fun transaction =>
    query env (SelectEnqueueMessagesSms jobId) (Some transaction) ;;;
    query env (SelectUpdateStatsSms campaignId) (Some transaction) ;;;
    resolve tt) ;;;
  logger (LogInfo "Enqueued sms messages" (workerId self) jobId
                  "enqueueMessages").

Definition getMessages (env : Environment) (cfg : Config) (self : t)
    (jobId rate : Z) : Async (list SmsMessage) :=
  dbResults <- query env (SelectGetMessagesToSendSms jobId rate) None ;;
  let result := map get_messages_to_send_sms_col (smsRows dbResults) in
  let showContactPref := phonebookContactPref_enabled cfg in
  if showContactPref && (0 <? List.length result)%nat then
    catch
      (match result with
       | [] => reject (mkError "Cannot read properties of undefined")
       | first :: _ =>
           let campaignId := sms_campaignId first in
           emailResult <-
             query env (SelectCampaignOwnerEmail (Some campaignId)) None ;;
           match ownerEmailRows emailResult with
           | [] =>
               reject (mkError
                 "Unable to fetch user email from campaign for phonebook contact preference api")
           | owner :: _ =>
               let userEmail := email owner in
               lift (getMessagesWithContactPrefLinks env result campaignId
                       userEmail)
           end
       end)
      (fun error =>
         logger (LogError "Unable to fetch contact preferences" error
                          (workerId self)) ;;;
         (* If phonebook is down, we still want to continue sending *)
         resolve result)
  else resolve result.

Definition sendMessage (env : Environment) (cfg : Config) (self : t)
    (id : Z) (recipient : string) (params : Params) (body : string)
    (campaignId : option Z) : Async unit :=
  catch
    ((normalisedRecipient <-
        match normalisePhoneNumber env recipient (defaultCountry cfg) with
        | Resolved normalised => resolve normalised
        | Rejected _ => reject (mkError "Recipient is incorrectly formatted")
        end ;;
      messageId <-
        match smsClient self with
        | None => resolve None
        | Some client =>
            text <- lift (template env XSS_SMS_OPTION (Some body) params) ;;
            dispatch (SmsSend client id normalisedRecipient text campaignId) ;;;
            sent <- lift (smsClient_send env client id normalisedRecipient
                            text campaignId) ;;
            resolve (Some sent)
        end ;;
      query env (UpdateSmsOpsSending id messageId) None))
    (fun error =>
       query env (UpdateSmsOpsError id (substring0 255 (message error))) None)
  ;;;
  logger (LogInfo "Sent sms message" (workerId self) id "sendMessage").

Definition setSendingService (env : Environment) (cfg : Config) (self : t)
    (credentialName : string) : Result unit * t :=
  match getTwilioCredentials env credentialName with
  | Rejected e => (Rejected e, self)
  | Resolved credentials =>
      (Resolved tt,
       mk (workerId self)
          (Some (if smsFallback_activate cfg
                 then SnsSmsClient
                 else TwilioClient credentials)))
  end.

Definition destroySendingService (self : t) : t := mk (workerId self) None.

End SMS.

(** ** The email worker ([email.class.ts]) *)

Module Email.

Record t : Type := mk {
  workerId : string;
  mailService : MailClient
}.

(** [constructor(workerId, connection)] *)
Definition new (cfg : Config) (workerId : string) : t :=
  mk workerId
     (mkMailClient (mailOptions cfg) (mailOptions_callbackHashSecret cfg)
        (if emailFallback_activate cfg then Some (mailFrom cfg) else None)
        (mailConfigurationSet cfg)).

Definition enqueueMessages (env : Environment) (self : t)
    (jobId campaignId : Z) : Async unit :=
  transaction (fun transaction =>
    query env (SelectEnqueueMessagesEmail jobId) (Some transaction) ;;;
    query env (SelectUpdateStatsEmailWithRead campaignId) (Some transaction) ;;;
    resolve tt) ;;;
  logger (LogInfo "Enqueued email messages" (workerId self) jobId
                  "enqueueMessages").

(** [{ ...row.message, showMasthead }] with
    [showMasthead = senderEmail.endsWith(showMastheadDomain)] *)
Definition withMasthead (showMastheadDomain : string) (m : Message)
    : Message :=
  mkMessage (id m) (recipient m) (params m) (body m) (subject m) (replyTo m)
            (from m) (campaignId m) (agencyName m) (agencyLogoURI m)
            (senderEmail m)
            (Some (endsWith (senderEmail m) showMastheadDomain))
            (contactPrefLink m).

Definition withContactPrefLink (link : option string) (m : Message)
    : Message :=
  mkMessage (id m) (recipient m) (params m) (body m) (subject m) (replyTo m)
            (from m) (campaignId m) (agencyName m) (agencyLogoURI m)
            (senderEmail m) (showMasthead m) link.

(** Modelled from the spec: [getContactPrefLinksForEmail] of
    [./util/contact-preference] is imported by [email.class.ts] but is not
    among the sources.  The spec has it call the external preference
    service, keyed by campaign id, recipients and the campaign owner's
    email, fail when the service fails, and otherwise augment each message
    with its recipient's preference link; every message handed on to
    rendering carries the masthead-visibility flag derived from whether the
    sender address belongs to the configured domain. *)
Definition getContactPrefLinksForEmail (env : Environment) (cfg : Config)
    (result : list EmailResultRow) (campaignId : option Z)
    (campaignOwnerEmail : string) : Result (list Message) :=
  match generate_pref_links env
          (map (fun row => recipient (row_message row)) result)
          campaignId campaignOwnerEmail with
  | Rejected e => Rejected e
  | Resolved links =>
      Resolved
        (map (fun row =>
                withContactPrefLink
                  (param (recipient (row_message row)) links)
                  (withMasthead (showMastheadDomain cfg) (row_message row)))
             result)
  end.

Definition getMessages (env : Environment) (cfg : Config) (self : t)
    (jobId rate : Z) : Async (list Message) :=
  let showMastheadDomain := showMastheadDomain cfg in
  dbResults <-
    query env (SelectGetMessagesToSendEmailWithAgency jobId rate) None ;;
  let result := emailRows dbResults in
  let fallthrough :=
    resolve
      (map (fun row => withMasthead showMastheadDomain (row_message row))
           result) in
  let showContactPref := phonebookContactPref_enabled cfg in
  if showContactPref && (0 <? List.length result)%nat then
    r <-
      catch
        (match result with
         | [] => reject (mkError "Cannot read properties of undefined")
         | first :: _ =>
             let campaignId := campaignId (row_message first) in
             emailResult <-
               query env (SelectCampaignOwnerEmail campaignId) None ;;
             match ownerEmailRows emailResult with
             | [] =>
                 reject (mkError
                   "Unable to fetch user email from campaign for phonebook contact preference api")
             | owner :: _ =>
                 let userEmail := email owner in
                 enriched <-
                   lift (getContactPrefLinksForEmail env cfg result campaignId
                           userEmail) ;;
                 resolve (Some enriched)
             end
         end)
        (fun error =>
           logger (LogError "Unable to fetch contact preferences" error
                            (workerId self)) ;;;
           (* If phonebook is down, we still want to continue sending *)
           resolve None) ;;
    match r with
    | Some enriched => resolve enriched
    | None => fallthrough
    end
  else fallthrough.

(** [`${campaignId}`] of a possibly missing number. *)
Definition interpolate (n : option Z) : string :=
  match n with Some z => toString z | None => "undefined" end.

Definition calculateHash (env : Environment) (cfg : Config)
    (campaignId : option Z) (recipient : string) : Result string :=
  let version := unsubscribeHmac_version cfg in
  createHmac env (unsubscribeHmac_algo cfg version)
             (unsubscribeHmac_key cfg version)
             (interpolate campaignId ++ "." ++ recipient).

Definition searchParams_append (key value : string) (link : URL) : URL :=
  mkURL (url_href link) (url_searchParams link ++ [(key, value)]).

Definition generateUnsubLink (env : Environment) (cfg : Config)
    (campaignId : option Z) (recipient : string) : Result URL :=
  let version := unsubscribeHmac_version cfg in
  match calculateHash env cfg campaignId recipient with
  | Rejected e => Rejected e
  | Resolved hmac =>
      match newURL env ("/unsubscribe/" ++ version) (unsubscribeUrl cfg) with
      | Rejected e => Rejected e
      | Resolved link =>
          match campaignId with
          | None =>
              Rejected (mkError
                "Cannot read properties of undefined (reading 'toString')")
          | Some c =>
              Resolved
                (searchParams_append "h" hmac
                   (searchParams_append "r" recipient
                      (searchParams_append "c" (toString c) link)))
          end
      end
  end.

Definition sendMessage (env : Environment) (cfg : Config) (self : t)
    (m : Message) : Async unit :=
  catch
    (if negb (isEmail env (recipient m)) then
       reject (mkError "Recipient is incorrectly formatted")
     else
       hydratedSubject <-
         lift (template env XSS_EMAIL_OPTION (subject m) (params m)) ;;
       hydratedBody <-
         lift (template env XSS_EMAIL_OPTION (Some (body m)) (params m)) ;;
       link <- lift (generateUnsubLink env cfg (campaignId m) (recipient m)) ;;
       let unsubLink := url_toString env link in
       themedHTMLEmail <-
         lift (generateThemedHTMLEmail env
                 (mkThemedEmailInput hydratedBody unsubLink (agencyName m)
                    (agencyLogoURI m) (showMasthead m) (contactPrefLink m))) ;;
       let mail :=
         mkMail (if truthy_opt (from m)
                 then match from m with Some f => f | None => mailFrom cfg end
                 else mailFrom cfg)
                [recipient m] hydratedSubject themedHTMLEmail
                (toString (id m)) unsubLink
                (match param "bcc" (params m) with
                 | Some bcc => if truthy bcc then Some (split "," bcc) else None
                 | None => None
                 end)
                (if truthy_opt (replyTo m) then replyTo m else None) in
       dispatch (MailSend (mailService self) mail) ;;;
       lift (sendMail env (mailService self) mail) ;;;
       query env (UpdateEmailOpsSending (id m)) None ;;;
       resolve tt)
    (fun error =>
       query env
         (UpdateEmailOpsError (id m) (substring0 255 (message error))) None ;;;
       resolve tt)
  ;;;
  logger (LogInfo "Sent email message" (workerId self) (id m) "sendMessage").

(** Do nothing *)
Definition setSendingService (self : t) (_ : string) : Result unit * t :=
  (Resolved tt, self).

(** Do nothing *)
Definition destroySendingService (self : t) : t := self.

End Email.

(** ** The callback ingestor *)

Module Callback.

(** The provider's delivery event. *)
Record CallbackEvent : Type := mkEvent {
  providerMessageId : string;
  providerStatus : string;
  errorCode : option string
}.

(** What a provider status stands for in the internal state machine. *)
Inductive Indication : Type := Success | DeliveryConfirmation | Failure.

(** The vocabulary of the reference scenario: "sent", "delivered",
    "failed". *)
Definition scenarioVocabulary (status : string) : option Indication :=
  if String.eqb status "sent" then Some Success
  else if String.eqb status "delivered" then Some DeliveryConfirmation
  else if String.eqb status "failed" then Some Failure
  else None.

Definition with_status (s : Status) (r : MessageRecord) : MessageRecord :=
  mkRecord (rec_id r) (rec_campaign_id r) (rec_recipient r) s
           (rec_message_id r) (rec_error_code r) (rec_delivered_at r)
           (rec_updated_at r).

Definition with_error (code : option string) (r : MessageRecord)
    : MessageRecord :=
  mkRecord (rec_id r) (rec_campaign_id r) (rec_recipient r) ERROR
           (rec_message_id r) code (rec_delivered_at r) (rec_updated_at r).

(** Modelled from the spec: the callback service ([SmsCallbackService] and
    the routes behind [/callback/sms]) is not among the sources, only its
    test is.  The spec's mapping: a success indicator sets SENT only from
    SENDING or UNSENT and is a no-op otherwise; a delivery confirmation
    sets DELIVERED only from SENT, a record in ERROR is left untouched; a
    failure indicator sets ERROR from any prior state and records the
    code, and a record already in ERROR stays as it is. *)
Definition transition (i : Indication) (code : option string)
    (r : MessageRecord) : MessageRecord :=
  match i, rec_status r with
  | Success, (UNSENT | SENDING) => with_status SENT r
  | Success, _ => r
  | DeliveryConfirmation, SENT => with_status DELIVERED r
  | DeliveryConfirmation, _ => r
  | Failure, ERROR => r
  | Failure, _ => with_error code r
  end.

Definition tracks (event : CallbackEvent) (r : MessageRecord) : bool :=
  match rec_message_id r with
  | Some mid => String.eqb mid (providerMessageId event)
  | None => false
  end.

(** Modelled from the spec: [ingest(event)] of the callback ingestor, not
    among the sources.  An unauthenticated callback is rejected before
    any state is touched; a status outside the vocabulary and an event for
    a provider message id no record carries are ignored; otherwise the
    records carrying the id take the transition. *)
Definition ingest (vocabulary : string -> option Indication)
    (authenticated : bool) (event : CallbackEvent)
    (records : list MessageRecord) : Result unit * list MessageRecord :=
  if negb authenticated then (Rejected (mkError "Unauthorized"), records)
  else
    match vocabulary (providerStatus event) with
    | None => (Resolved tt, records)
    | Some i =>
        (Resolved tt,
         map (fun r => if tracks event r
                       then transition i (errorCode event) r
                       else r)
             records)
    end.

(** A sequence of callbacks, each with the verdict of its credential
    check, applied in order. *)
Fixpoint ingestAll (vocabulary : string -> option Indication)
    (events : list (bool * CallbackEvent)) (records : list MessageRecord)
    : list MessageRecord :=
  match events with
  | [] => records
  | (authenticated, event) :: rest =>
      ingestAll vocabulary rest
                (snd (ingest vocabulary authenticated event records))
  end.

End Callback.

(** ** A call of [sendMessage] on either worker *)

Inductive SendCall : Type :=
| SmsCall (self : SMS.t) (id : Z) (recipient : string) (params : Params)
          (body : string) (campaignId : option Z)
| EmailCall (self : Email.t) (m : Message).

Definition sendMessage (env : Environment) (cfg : Config) (c : SendCall)
    : Async unit :=
  match c with
  | SmsCall self id recipient params body campaignId =>
      SMS.sendMessage env cfg self id recipient params body campaignId
  | EmailCall self m => Email.sendMessage env cfg self m
  end.

Definition record_id (c : SendCall) : Z :=
  match c with
  | SmsCall _ id _ _ _ _ => id
  | EmailCall _ m => id m
  end.

(** The ops table the call writes to. *)
Definition ops (c : SendCall) (t : Tables) : list MessageRecord :=
  match c with
  | SmsCall _ _ _ _ _ _ => sms_ops t
  | EmailCall _ _ => email_ops t
  end.

Definition with_ops (c : SendCall) (t : Tables) (rows : list MessageRecord)
    : Tables :=
  match c with
  | SmsCall _ _ _ _ _ _ => with_sms_ops t rows
  | EmailCall _ _ => with_email_ops t rows
  end.

(** The status updates a call can issue. *)
Definition error_update (c : SendCall) (error : string) : Statement :=
  match c with
  | SmsCall _ id _ _ _ _ => UpdateSmsOpsError id error
  | EmailCall _ m => UpdateEmailOpsError (id m) error
  end.

Definition sending_update (c : SendCall) (messageId : option string)
    : Statement :=
  match c with
  | SmsCall _ id _ _ _ _ => UpdateSmsOpsSending id messageId
  | EmailCall _ m => UpdateEmailOpsSending (id m)
  end.

(** What the accepted SENDING update writes into the row. *)
Definition set_sending (c : SendCall) (now : Z) (messageId : option string)
    : MessageRecord -> MessageRecord :=
  match c with
  | SmsCall _ _ _ _ _ _ => set_sms_sending now messageId
  | EmailCall _ _ => set_email_sending now
  end.

Definition closing_log (c : SendCall) : LogEntry :=
  match c with
  | SmsCall self id _ _ _ _ =>
      LogInfo "Sent sms message" (SMS.workerId self) id "sendMessage"
  | EmailCall self m =>
      LogInfo "Sent email message" (Email.workerId self) (id m) "sendMessage"
  end.

(** Whether the recipient passes the validation of its channel. *)
Definition recipient_ok (env : Environment) (cfg : Config) (c : SendCall)
    : bool :=
  match c with
  | SmsCall _ _ recipient _ _ _ =>
      isResolved (normalisePhoneNumber env recipient (defaultCountry cfg))
  | EmailCall _ m => isEmail env (recipient m)
  end.

(** The mail the email worker hands to its mail service once validation and
    rendering went through. *)
Definition rendered_mail (env : Environment) (cfg : Config) (m : Message)
    : Result MailToSend :=
  if negb (isEmail env (recipient m)) then
    Rejected (mkError "Recipient is incorrectly formatted")
  else
    match template env XSS_EMAIL_OPTION (subject m) (params m) with
    | Rejected e => Rejected e
    | Resolved hydratedSubject =>
    match template env XSS_EMAIL_OPTION (Some (body m)) (params m) with
    | Rejected e => Rejected e
    | Resolved hydratedBody =>
    match Email.generateUnsubLink env cfg (campaignId m) (recipient m) with
    | Rejected e => Rejected e
    | Resolved link =>
    let unsubLink := url_toString env link in
    match generateThemedHTMLEmail env
            (mkThemedEmailInput hydratedBody unsubLink (agencyName m)
               (agencyLogoURI m) (showMasthead m) (contactPrefLink m)) with
    | Rejected e => Rejected e
    | Resolved themedHTMLEmail =>
        Resolved
          (mkMail (if truthy_opt (from m)
                   then match from m with Some f => f | None => mailFrom cfg end
                   else mailFrom cfg)
                  [recipient m] hydratedSubject themedHTMLEmail
                  (toString (id m)) unsubLink
                  (match param "bcc" (params m) with
                   | Some bcc => if truthy bcc then Some (split "," bcc) else None
                   | None => None
                   end)
                  (if truthy_opt (replyTo m) then replyTo m else None))
    end end end end.

(** The calls a [sendMessage] makes on its transport: none when validation
    or rendering fails or when the SMS worker holds no client. *)
Definition transport_calls (env : Environment) (cfg : Config) (c : SendCall)
    : list Outbound :=
  match c with
  | SmsCall self id recipient params body campaignId =>
      match normalisePhoneNumber env recipient (defaultCountry cfg),
            SMS.smsClient self with
      | Resolved normalised, Some client =>
          match template env XSS_SMS_OPTION (Some body) params with
          | Resolved text => [SmsSend client id normalised text campaignId]
          | Rejected _ => []
          end
      | _, _ => []
      end
  | EmailCall self m =>
      match rendered_mail env cfg m with
      | Resolved mail => [MailSend (Email.mailService self) mail]
      | Rejected _ => []
      end
  end.

(** What validation, rendering and the transport come to, before any status
    is written: the provider's message id ([None] when the SMS worker holds
    no client and skips the send), or the failure. *)
Definition transport_outcome (env : Environment) (cfg : Config)
    (c : SendCall) : Result (option string) :=
  match c with
  | SmsCall self id recipient params body campaignId =>
      match normalisePhoneNumber env recipient (defaultCountry cfg) with
      | Rejected _ => Rejected (mkError "Recipient is incorrectly formatted")
      | Resolved normalised =>
          match SMS.smsClient self with
          | None => Resolved None
          | Some client =>
              match template env XSS_SMS_OPTION (Some body) params with
              | Rejected e => Rejected e
              | Resolved text =>
                  match smsClient_send env client id normalised text
                          campaignId with
                  | Rejected e => Rejected e
                  | Resolved sent => Resolved (Some sent)
                  end
              end
          end
      end
  | EmailCall self m =>
      match rendered_mail env cfg m with
      | Rejected e => Rejected e
      | Resolved mail =>
          match sendMail env (Email.mailService self) mail with
          | Rejected e => Rejected e
          | Resolved sent => Resolved (Some sent)
          end
      end
  end.

(** The world once the transport calls have been handed over. *)
Definition handed_over (calls : list Outbound) (w : World) : World :=
  mkWorld (committed w) (inTransaction w) (clock w) (outbox w ++ calls)
          (logs w).

(** Writing the status that belongs to an outcome, as both workers do it:
    the SENDING update on success, the ERROR update with the message cut to
    255 characters on any failure (that of the SENDING update included),
    then the closing log line. *)
Definition settle (env : Environment) (c : SendCall)
    (outcome : Result (option string)) : Async unit :=
  catch
    (match outcome with
     | Resolved messageId =>
         query env (sending_update c messageId) None ;;; resolve tt
     | Rejected e => reject e
     end)
    (fun error =>
       query env (error_update c (substring0 255 (message error))) None ;;;
       resolve tt)
  ;;;
  logger (closing_log c).

(** The committed tables after an accepted update of the call's record. *)
Definition record_updated (c : SendCall) (f : MessageRecord -> MessageRecord)
    (t : Tables) : Tables :=
  with_ops c t (update_where (record_id c) f (ops c t)).

(** ** Properties stated over the model *)

(** [s] ends with [suffix]. *)
Definition has_suffix (s suffix : string) : Prop :=
  exists front, s = (front ++ suffix)%string.

(** The owner's email for the preference service, or the failure of the
    lookup (the statement is refused, the sub-select is ambiguous, or no row
    comes back). *)
Definition owner_lookup (env : Environment) (now : Z) (campaign : option Z)
    (t : Tables) : Result string :=
  match exec env now (SelectCampaignOwnerEmail campaign) t with
  | Rejected e => Rejected e
  | Resolved (q, _) =>
      match ownerEmailRows q with
      | [] =>
          Rejected (mkError
            "Unable to fetch user email from campaign for phonebook contact preference api")
      | owner :: _ => Resolved (email owner)
      end
  end.

(** The batch of the email worker without enrichment. *)
Definition unenriched (cfg : Config) (rows : list EmailResultRow)
    : list Message :=
  map (fun row => Email.withMasthead (showMastheadDomain cfg) (row_message row))
      rows.

(** Enrichment fails: the owner lookup fails, or the preference service
    does. *)
Definition enrichment_fails {A : Type} (lookup : Result string)
    (service : string -> Result A) : bool :=
  match lookup with
  | Rejected _ => true
  | Resolved userEmail => negb (isResolved (service userEmail))
  end.

(** The outcome of the two statements of [enqueueMessages] on the committed
    tables: both applied, or none. *)
Definition both_or_neither (env : Environment) (first second : Statement)
    (w : World) (r : Result unit) (w' : World) : Prop :=
  inTransaction w' = None /\
  ((exists q1 t1 q2 t2,
      exec env (clock w) first (committed w) = Resolved (q1, t1) /\
      exec env (clock w + 1) second t1 = Resolved (q2, t2) /\
      r = Resolved tt /\ committed w' = t2)
   \/
   (exists e,
      r = Rejected e /\ committed w' = committed w /\
      (exec env (clock w) first (committed w) = Rejected e \/
       exists q1 t1,
         exec env (clock w) first (committed w) = Resolved (q1, t1) /\
         exec env (clock w + 1) second t1 = Rejected e))).

(** [config] with another value of [smsFallback.activate]. *)
Definition with_smsFallback (flag : bool) (cfg : Config) : Config :=
  mkConfig (defaultCountry cfg) flag (emailFallback_activate cfg)
           (phonebookContactPref_enabled cfg) (showMastheadDomain cfg)
           (mailFrom cfg) (mailOptions cfg) (mailOptions_callbackHashSecret cfg)
           (mailConfigurationSet cfg) (unsubscribeHmac_version cfg)
           (unsubscribeHmac_algo cfg) (unsubscribeHmac_key cfg)
           (unsubscribeUrl cfg).

(** An environment whose database refuses the statements [fault] names. *)
Definition with_db_fault (fault : Statement -> option Error)
    (env : Environment) : Environment :=
  mkEnvironment fault (enqueue_messages_sms env) (update_stats_sms env)
    (enqueue_messages_email env) (update_stats_email_with_read env)
    (get_messages_to_send_sms env) (get_messages_to_send_email_with_agency env)
    (getTwilioCredentials env) (normalisePhoneNumber env) (isEmail env)
    (template env) (smsClient_send env) (sendMail env)
    (generateThemedHTMLEmail env) (createHmac env) (newURL env)
    (url_toString env) (getMessagesWithContactPrefLinks env)
    (generate_pref_links env).

(** ** A small deployment to run the model on *)

Module Sample.

Definition isDigit (c : ascii) : bool :=
  (48 <=? nat_of_ascii c)%nat && (nat_of_ascii c <=? 57)%nat.

Fixpoint allDigits (s : string) : bool :=
  match s with
  | EmptyString => true
  | String c rest => isDigit c && allDigits rest
  end.

Fixpoint contains (c : ascii) (s : string) : bool :=
  match s with
  | EmptyString => false
  | String d rest => Ascii.eqb c d || contains c rest
  end.

Definition normalise (recipient country : string) : Result string :=
  if allDigits recipient && (String.length recipient =? 8)%nat
  then Resolved ("+65" ++ recipient)
  else Rejected (mkError "Invalid phone number").

Definition render (_ : XssOption) (text : option string) (_ : Params)
    : Result string :=
  match text with
  | Some s => Resolved s
  | None => Rejected (mkError "Template cannot be empty")
  end.

Definition credentials : TwilioCredentials :=
  mkTwilioCredentials "AC1" "key" "secret" "MG1".

Definition resolveCredentials (name : string) : Result TwilioCredentials :=
  if String.eqb name "twilio" then Resolved credentials
  else Rejected (mkError "Credential not found").

Definition enqueueSms (job : Z) (t : Tables) : Result Tables :=
  Resolved
    (with_sms_ops t
       (sms_ops t ++ [mkRecord job 1 "91234567" UNSENT None None None None])).

Definition enqueueEmail (job : Z) (t : Tables) : Result Tables :=
  Resolved
    (with_email_ops t
       (email_ops t
          ++ [mkRecord job 1 "new@agency.gov.sg" UNSENT None None None None])).

Definition recount (rows : Tables -> list MessageRecord) (c : Z) (t : Tables)
    : Result Tables :=
  if (c <? 0) then Rejected (mkError "campaign does not exist")
  else
    Resolved
      (mkTables (sms_ops t) (email_ops t) (users t) (campaigns t)
         [mkStatistics c (Z.of_nat (List.length (rows t))) 0]).

Definition readySms (job rate : Z) (t : Tables)
    : Result (list SmsMessage * Tables) :=
  Resolved
    (map (fun r => mkSmsMessage (rec_id r) (rec_recipient r) [] "Hello world"
                                (rec_campaign_id r))
         (firstn (Z.to_nat rate) (sms_ops t)),
     t).

Definition readyEmail (job rate : Z) (t : Tables)
    : Result (list Message * Tables) :=
  Resolved
    (map (fun r =>
            mkMessage (rec_id r) (rec_recipient r) [] "Hello world"
                      (Some "Greetings") None None (Some (rec_campaign_id r))
                      (Some "Agency") None
                      (if Z.eqb (rec_id r) 1 then "info@agency.gov.sg"
                       else "info@vendor.example")
                      None None)
         (firstn (Z.to_nat rate) (email_ops t)),
     t).

(** sequelize formats the named replacements before a statement is sent and
    throws for one whose value is [undefined]: the campaign id of the owner
    lookup and the message id of the SENDING update can be. *)
Definition quoted (name : string) : string :=
  String (ascii_of_nat 34) (name ++ String (ascii_of_nat 34) EmptyString).

Definition noValue (name : string) : Error :=
  mkError ("Named parameter " ++ quoted name
             ++ " has no value in the given object.").

Definition formatting (s : Statement) : option Error :=
  match s with
  | SelectCampaignOwnerEmail None => Some (noValue ":campaignId")
  | UpdateSmsOpsSending _ None => Some (noValue ":messageId")
  | _ => None
  end.

(** What the database refuses, behind the query layer. *)
Definition behindQueryLayer (fault : Statement -> option Error)
    (s : Statement) : option Error :=
  match formatting s with
  | Some e => Some e
  | None => fault s
  end.

(** The digests of the sample platform. *)
Definition hmac (algo key data : string) : Result string :=
  if String.eqb algo "sha256"
  then Resolved (algo ++ ":" ++ key ++ ":" ++ data)
  else Rejected (mkError ("Invalid digest: " ++ algo)).

Definition env : Environment :=
  mkEnvironment
    formatting
    enqueueSms (recount sms_ops) enqueueEmail (recount email_ops)
    readySms readyEmail
    resolveCredentials normalise (contains "@") render
    (fun _ msg _ _ _ => Resolved ("SM" ++ toString msg))
    (fun _ mail => Resolved ("ses-" ++ mail_messageId mail))
    (fun input => Resolved (te_body input))
    hmac
    (fun path base => Resolved (mkURL (base ++ path) []))
    url_href
    (fun ms _ _ => Resolved ms)
    (fun recipients _ _ =>
       Resolved (map (fun r => (r, "https://pref.example/" ++ r)) recipients)).

(** The preference service is down. *)
Definition envServiceDown : Environment :=
  mkEnvironment
    (db_fault env) (enqueue_messages_sms env) (update_stats_sms env)
    (enqueue_messages_email env) (update_stats_email_with_read env)
    (get_messages_to_send_sms env) (get_messages_to_send_email_with_agency env)
    (getTwilioCredentials env) (normalisePhoneNumber env) (isEmail env)
    (template env) (smsClient_send env) (sendMail env)
    (generateThemedHTMLEmail env) (createHmac env) (newURL env)
    (url_toString env)
    (fun _ _ _ => Rejected (mkError "503 Service Unavailable"))
    (fun _ _ _ => Rejected (mkError "503 Service Unavailable")).

(** The database is unreachable. *)
Definition envDatabaseDown : Environment :=
  with_db_fault
    (behindQueryLayer
       (fun _ => Some (mkError "Connection terminated unexpectedly")))
    env.

Definition cfg : Config :=
  mkConfig "SG" false false true ".gov.sg" "donotreply@mail.postman.gov.sg"
           (mkMailCredentials "smtp.example" 465 "user" "pass") "hash-secret"
           "postman-set" "v1" (fun _ => "sha256") (fun _ => "hmac-key")
           "https://postman.gov.sg".

Definition tables : Tables :=
  mkTables
    [mkRecord 1 1 "98765432" UNSENT None None None None;
     mkRecord 2 1 "not-a-number" UNSENT None None None None]
    [mkRecord 1 1 "user@agency.gov.sg" UNSENT None None None None;
     mkRecord 2 1 "malformed" UNSENT None None None None]
    [mkUser 7 "owner@agency.gov.sg"]
    [mkCampaign 1 7]
    [].

Definition world : World := mkWorld tables None 100 [] [].

Definition sms : SMS.t := SMS.new "worker-1".
Definition mailer : Email.t := Email.new cfg "worker-1".

Definition mail (recipient : string) (row : Z) : Message :=
  mkMessage row recipient [] "Hello world" (Some "Greetings") None None
            (Some 1) (Some "Agency") None "info@agency.gov.sg" (Some true)
            None.

(** The SMS worker once [setSendingService "twilio"] went through. *)
Definition smsReady : SMS.t :=
  snd (SMS.setSendingService env cfg sms "twilio").

Definition validSms : SendCall :=
  SmsCall smsReady 1 "98765432" [] "Hello world" (Some 1).
Definition malformedSms : SendCall :=
  SmsCall smsReady 2 "not-a-number" [] "Hello world" (Some 1).
Definition validEmail : SendCall :=
  EmailCall mailer (mail "user@agency.gov.sg" 1).
Definition malformedEmail : SendCall :=
  EmailCall mailer (mail "malformed" 2).

End Sample.

(** ** Further vocabulary for the workers *)

(** What the try block of [getMessages] comes to: the owner lookup, then the
    preference helper with the owner's email. *)
Definition enrichment_outcome {A : Type} (lookup : Result string)
    (service : string -> Result A) : Result A :=
  match lookup with
  | Rejected e => Rejected e
  | Resolved userEmail => service userEmail
  end.

(** The line the catch block of [getMessages] logs. *)
Definition enrichment_log (workerId : string) (error : Error) : LogEntry :=
  LogError "Unable to fetch contact preferences" error workerId.

(** The answer of the transport to one call handed to it. *)
Definition transport_answer (env : Environment) (call : Outbound)
    : Result string :=
  match call with
  | SmsSend client msg to text campaign =>
      smsClient_send env client msg to text campaign
  | MailSend client mail => sendMail env client mail
  end.

(** The record a call handed to a transport refers to. *)
Definition call_reference (call : Outbound) : string :=
  match call with
  | SmsSend _ msg _ _ _ => toString msg
  | MailSend _ mail => mail_messageId mail
  end.

(** The ops table a call does not write to. *)
Definition other_ops (c : SendCall) (t : Tables) : list MessageRecord :=
  match c with
  | SmsCall _ _ _ _ _ _ => email_ops t
  | EmailCall _ _ => sms_ops t
  end.

(** [config] with other values of [phonebookContactPref.enabled] and of
    [emailFallback.activate]. *)
Definition with_contactPref (flag : bool) (cfg : Config) : Config :=
  mkConfig (defaultCountry cfg) (smsFallback_activate cfg)
           (emailFallback_activate cfg) flag (showMastheadDomain cfg)
           (mailFrom cfg) (mailOptions cfg) (mailOptions_callbackHashSecret cfg)
           (mailConfigurationSet cfg) (unsubscribeHmac_version cfg)
           (unsubscribeHmac_algo cfg) (unsubscribeHmac_key cfg)
           (unsubscribeUrl cfg).

Definition with_emailFallback (flag : bool) (cfg : Config) : Config :=
  mkConfig (defaultCountry cfg) (smsFallback_activate cfg) flag
           (phonebookContactPref_enabled cfg) (showMastheadDomain cfg)
           (mailFrom cfg) (mailOptions cfg) (mailOptions_callbackHashSecret cfg)
           (mailConfigurationSet cfg) (unsubscribeHmac_version cfg)
           (unsubscribeHmac_algo cfg) (unsubscribeHmac_key cfg)
           (unsubscribeUrl cfg).

(** The character [c] occurs in [s]. *)
Fixpoint occurs (c : ascii) (s : string) : bool :=
  match s with
  | EmptyString => false
  | String d rest => Ascii.eqb c d || occurs c rest
  end.

(** The text [calculateHash] hands to the HMAC:
    [`${campaignId}.${recipient}`]. *)
Definition hashed_text (campaignId : option Z) (recipient : string) : string :=
  Email.interpolate campaignId ++ "." ++ recipient.

(** ** The confirm dialog ([ConfirmModal.tsx]) *)

Module ConfirmModal.

(** What the modal context shows: this dialog, the feedback modal put in its
    place, or nothing once [modalContext.close()] ran. *)
Inductive ModalContent : Type :=
| ConfirmDialog
| FeedbackModal (url : string)
| Closed.

(** [modalContext] together with the component's [errorMessage] state. *)
Record State : Type := mkState {
  content : ModalContent;
  errorMessage : string
}.

(** [useState('')], with the dialog on screen. *)
Definition initial : State := mkState ConfirmDialog EmptyString.

Definition setErrorMessage (msg : string) (st : State) : State :=
  mkState (content st) msg.

Definition close (st : State) : State := mkState Closed (errorMessage st).

(** [modalContext.setModalContent(<FeedbackModal url={feedbackUrl + email} />)] *)
Definition openFeedbackModal (feedbackUrl email : string) (st : State)
    : State :=
  mkState (FeedbackModal (feedbackUrl ++ email)) (errorMessage st).

(** [onConfirmedClicked], given what [await onConfirm()] came to. *)
Definition onConfirmedClicked (feedbackUrl : option string) (email : string)
    (onConfirm : Result unit) (st : State) : State :=
  match onConfirm with
  | Resolved _ =>
      match feedbackUrl with
      | Some url =>
          if truthy url then openFeedbackModal url email st else close st
      | None => close st
      end
  | Rejected err => setErrorMessage (message err) st
  end.

(** [onCancelClicked], given what [await onCancel()] came to; [None] when
    the dialog was given no [onCancel]. *)
Definition onCancelClicked (onCancel : option (Result unit)) (st : State)
    : State :=
  match onCancel with
  | Some (Rejected err) => setErrorMessage (message err) st
  | Some (Resolved _) => close st
  | None => close st
  end.

Inductive Click : Type :=
| ClickConfirm (onConfirm : Result unit)
| ClickCancel (onCancel : option (Result unit)).

(** A click reaches its handler only while the dialog is on screen. *)
Definition click (feedbackUrl : option string) (email : string) (c : Click)
    (st : State) : State :=
  match content st with
  | ConfirmDialog =>
      match c with
      | ClickConfirm onConfirm =>
          onConfirmedClicked feedbackUrl email onConfirm st
      | ClickCancel onCancel => onCancelClicked onCancel st
      end
  | _ => st
  end.

Definition clicks (feedbackUrl : option string) (email : string)
    (cs : list Click) (st : State) : State :=
  fold_left (fun st c => click feedbackUrl email c st) cs st.

(** The callback behind a click threw: the message it threw with. *)
Definition failure (c : Click) : option string :=
  match c with
  | ClickConfirm (Rejected err) => Some (message err)
  | ClickCancel (Some (Rejected err)) => Some (message err)
  | _ => None
  end.

(** The message of the last click, when every click failed. *)
Fixpoint last_failure (cs : list Click) (shown : string) : option string :=
  match cs with
  | [] => Some shown
  | c :: rest =>
      match failure c with
      | Some msg => last_failure rest msg
      | None => None
      end
  end.

End ConfirmModal.

(** ** Further cases of the sample deployment *)

Module Cases.

(** The database has lost the connection for the SENDING updates only. *)
Definition envSendingRefused : Environment :=
  with_db_fault
    (Sample.behindQueryLayer
       (fun s =>
          match s with
          | UpdateSmsOpsSending _ _ => Some (mkError "deadlock detected")
          | UpdateEmailOpsSending _ => Some (mkError "deadlock detected")
          | _ => None
          end))
    Sample.env.

(** The fetch procedures cannot be called. *)
Definition envFetchDown : Environment :=
  with_db_fault
    (Sample.behindQueryLayer
       (fun s =>
          match s with
          | SelectGetMessagesToSendSms _ _ =>
              Some (mkError "function does not exist")
          | SelectGetMessagesToSendEmailWithAgency _ _ =>
              Some (mkError "function does not exist")
          | _ => None
          end))
    Sample.env.

Fixpoint replicate (n : nat) (c : ascii) : string :=
  match n with
  | O => EmptyString
  | S k => String c (replicate k c)
  end.

(** The gateway turns every message down with a 300-character message. *)
Definition envGatewayVerbose : Environment :=
  mkEnvironment
    (db_fault Sample.env) (enqueue_messages_sms Sample.env)
    (update_stats_sms Sample.env) (enqueue_messages_email Sample.env)
    (update_stats_email_with_read Sample.env)
    (get_messages_to_send_sms Sample.env)
    (get_messages_to_send_email_with_agency Sample.env)
    (getTwilioCredentials Sample.env) (normalisePhoneNumber Sample.env)
    (isEmail Sample.env) (template Sample.env)
    (fun _ _ _ _ _ => Rejected (mkError (replicate 300 "x")))
    (sendMail Sample.env) (generateThemedHTMLEmail Sample.env)
    (createHmac Sample.env) (newURL Sample.env) (url_toString Sample.env)
    (getMessagesWithContactPrefLinks Sample.env)
    (generate_pref_links Sample.env).

(** The sample deployment with the contact-preference enrichment switched
    off, and one whose HMAC version names a digest the platform lacks. *)
Definition cfgNoPref : Config := with_contactPref false Sample.cfg.

Definition cfgUnknownDigest : Config :=
  mkConfig (defaultCountry Sample.cfg) (smsFallback_activate Sample.cfg)
           (emailFallback_activate Sample.cfg)
           (phonebookContactPref_enabled Sample.cfg)
           (showMastheadDomain Sample.cfg) (mailFrom Sample.cfg)
           (mailOptions Sample.cfg) (mailOptions_callbackHashSecret Sample.cfg)
           (mailConfigurationSet Sample.cfg) "v2" (fun _ => "sha-unknown")
           (unsubscribeHmac_key Sample.cfg) (unsubscribeUrl Sample.cfg).

(** No message is ready. *)
Definition idleTables : Tables :=
  mkTables [] [] (users Sample.tables) (campaigns Sample.tables) [].

Definition idleWorld : World := mkWorld idleTables None 100 [] [].

(** A campaign whose owner is not among the users. *)
Definition orphanTables : Tables :=
  mkTables (sms_ops Sample.tables) (email_ops Sample.tables) []
           (campaigns Sample.tables) [].

Definition orphanWorld : World := mkWorld orphanTables None 100 [] [].

(** A message that lost its campaign id, and one with bcc and reply-to. *)
Definition mailWithoutCampaign : Message :=
  mkMessage 1 "user@agency.gov.sg" [] "Hello world" (Some "Greetings") None
            None None (Some "Agency") None "info@agency.gov.sg" (Some true)
            None.

Definition mailWithCopies : Message :=
  mkMessage 1 "user@agency.gov.sg" [("bcc", "a@x.sg,b@y.sg")] "Hello world"
            (Some "Greetings") (Some "reply@agency.gov.sg")
            (Some "sender@agency.gov.sg") (Some 1) (Some "Agency") None
            "info@agency.gov.sg" (Some true) None.

End Cases.

(** * Verification *)

(** ** Strings *)

Lemma substring0_length (n : nat) (s : string) :
  (String.length (substring0 n s) <= n)%nat.
Proof.
  unfold substring0. revert s.
  induction n as [|n IH]; intros [|c s]; simpl; try lia.
  specialize (IH s). lia.
Qed.

Lemma substring0_short (n : nat) (s : string) :
  (String.length s <= n)%nat -> substring0 n s = s.
Proof.
  unfold substring0. revert s.
  induction n as [|n IH]; intros [|c s]; simpl; intros H;
    try reflexivity; try lia.
  now rewrite IH by lia.
Qed.

Lemma substring0_prefix (n : nat) (s : string) :
  exists rest, s = (substring0 n s ++ rest)%string.
Proof.
  unfold substring0. revert s.
  induction n as [|n IH]; intros [|c s]; simpl.
  - now exists EmptyString.
  - now exists (String c s).
  - now exists EmptyString.
  - destruct (IH s) as [rest Hrest]. exists rest. now rewrite <- Hrest.
Qed.

Lemma length_app (a b : string) :
  String.length (a ++ b) = (String.length a + String.length b)%nat.
Proof. induction a as [|c a IH]; simpl; [reflexivity | now rewrite IH]. Qed.

Lemma substring_whole (s : string) : String.substring 0 (String.length s) s = s.
Proof. induction s as [|c s IH]; simpl; [reflexivity | now rewrite IH]. Qed.

Lemma substring_skip (front s : string) (m : nat) :
  String.substring (String.length front) m (front ++ s) = String.substring 0 m s.
Proof. induction front as [|c front IH]; simpl; [reflexivity | exact IH]. Qed.

Lemma substring_split (n : nat) (s : string) :
  (n <= String.length s)%nat ->
  s = (String.substring 0 n s
         ++ String.substring n (String.length s - n) s)%string.
Proof.
  revert s. induction n as [|n IH]; intros s H.
  - rewrite Nat.sub_0_r, substring_whole. now destruct s.
  - destruct s as [|c s]; simpl in *; [lia |].
    f_equal. apply IH. lia.
Qed.

Lemma endsWith_spec (s suffix : string) :
  endsWith s suffix = true <-> has_suffix s suffix.
Proof.
  unfold endsWith, has_suffix. split.
  - destruct (Nat.leb_spec (String.length suffix) (String.length s)) as [Hle|];
      [| discriminate].
    intros H. apply String.eqb_eq in H.
    exists (String.substring 0 (String.length s - String.length suffix) s).
    assert (Hs := substring_split
                    (String.length s - String.length suffix) s ltac:(lia)).
    replace (String.length s - (String.length s - String.length suffix))%nat
      with (String.length suffix) in Hs by lia.
    now rewrite H in Hs.
  - intros [front ->]. rewrite length_app.
    destruct (Nat.leb_spec (String.length suffix)
                (String.length front + String.length suffix)) as [_|]; [| lia].
    replace (String.length front + String.length suffix - String.length suffix)%nat
      with (String.length front) by lia.
    rewrite substring_skip, substring_whole. apply String.eqb_refl.
Qed.

(** ** Updating one record *)

Lemma update_where_rows (row : Z) (f : MessageRecord -> MessageRecord)
    (rows : list MessageRecord) :
  Forall2 (fun r r' => r' = if Z.eqb (rec_id r) row then f r else r)
          rows (update_where row f rows).
Proof.
  induction rows as [|r rows IH]; simpl; constructor; auto.
Qed.

Lemma Forall2_weaken {A B : Type} (P Q : A -> B -> Prop) (l : list A)
    (l' : list B) :
  (forall a b, P a b -> Q a b) -> Forall2 P l l' -> Forall2 Q l l'.
Proof. intros H. induction 1; constructor; auto. Qed.

Lemma Forall2_same {A : Type} (P : A -> A -> Prop) (l : list A) :
  (forall a, P a a) -> Forall2 P l l.
Proof. intros H. induction l; constructor; auto. Qed.

Lemma with_ops_ops (c : SendCall) (t : Tables) (rows : list MessageRecord) :
  ops c (with_ops c t rows) = rows.
Proof. now destruct c. Qed.

(** ** Running a statement *)

Lemma world_eta (w : World) :
  mkWorld (committed w) (inTransaction w) (clock w) (outbox w) (logs w) = w.
Proof. now destruct w. Qed.

Lemma handed_over_nil (w : World) : handed_over [] w = w.
Proof. unfold handed_over. rewrite app_nil_r. apply world_eta. Qed.

Lemma exec_error_update (env : Environment) (c : SendCall) (now : Z)
    (error : string) (t : Tables) :
  db_fault env (error_update c error) = None ->
  exec env now (error_update c error) t
  = Resolved (NoRows, record_updated c (set_error now error) t).
Proof. unfold exec. intros ->. now destruct c. Qed.

Lemma exec_sending_update (env : Environment) (c : SendCall) (now : Z)
    (messageId : option string) (t : Tables) :
  db_fault env (sending_update c messageId) = None ->
  exec env now (sending_update c messageId) t
  = Resolved (NoRows, record_updated c (set_sending c now messageId) t).
Proof. unfold exec. intros ->. now destruct c. Qed.

Lemma exec_refused (env : Environment) (now : Z) (s : Statement) (t : Tables)
    (e : Error) :
  db_fault env s = Some e -> exec env now s t = Rejected e.
Proof. unfold exec. now intros ->. Qed.

(** ** [sendMessage] is the transport outcome followed by its status update *)

Ltac run_exec :=
  repeat match goal with
         | |- context [match exec ?e ?n ?s ?t with _ => _ end] =>
             destruct (exec e n s t) as [[? ?]|?]; simpl
         end.

Lemma sendMessage_settles (env : Environment) (cfg : Config) (c : SendCall)
    (w : World) :
  sendMessage env cfg c w
  = settle env c (transport_outcome env cfg c)
           (handed_over (transport_calls env cfg c) w).
Proof.
  destruct c as [self row recipient ps text campaign | self m]; simpl.
  - unfold SMS.sendMessage, settle, catch, andThen, lift, resolve, reject,
      dispatch, handed_over, query; simpl.
    destruct (normalisePhoneNumber env recipient (defaultCountry cfg))
      as [normalised|e0]; simpl.
    + destruct (SMS.smsClient self) as [client|]; simpl.
      * destruct (template env XSS_SMS_OPTION (Some text) ps) as [out|e1]; simpl.
        -- destruct (smsClient_send env client row normalised out campaign)
             as [sent|e2]; simpl; run_exec; reflexivity.
        -- rewrite app_nil_r. run_exec; reflexivity.
      * rewrite app_nil_r. run_exec; reflexivity.
    + rewrite app_nil_r. run_exec; reflexivity.
  - unfold Email.sendMessage, settle, rendered_mail, catch, andThen, lift,
      resolve, reject, dispatch, handed_over, query; simpl.
    destruct (isEmail env (recipient m)); simpl.
    + destruct (template env XSS_EMAIL_OPTION (subject m) (params m))
        as [hydratedSubject|e1]; simpl.
      * destruct (template env XSS_EMAIL_OPTION (Some (body m)) (params m))
          as [hydratedBody|e2]; simpl.
        -- destruct (Email.generateUnsubLink env cfg (campaignId m) (recipient m))
             as [link|e3]; simpl.
           ++ destruct (generateThemedHTMLEmail env _) as [html|e4]; simpl.
              ** destruct (sendMail env (Email.mailService self) _)
                   as [sent|e5]; simpl; run_exec; reflexivity.
              ** rewrite app_nil_r. run_exec; reflexivity.
           ++ rewrite app_nil_r. run_exec; reflexivity.
        -- rewrite app_nil_r. run_exec; reflexivity.
      * rewrite app_nil_r. run_exec; reflexivity.
    + rewrite app_nil_r. run_exec; reflexivity.
Qed.

(** ** Settling an outcome *)

Lemma settle_failure_accepted (env : Environment) (c : SendCall) (e : Error)
    (w : World) :
  db_fault env (error_update c (substring0 255 (message e))) = None ->
  settle env c (Rejected e) w
  = (Resolved tt,
     mkWorld (record_updated c
                (set_error (clock w) (substring0 255 (message e)))
                (committed w))
             (inTransaction w) (clock w + 1) (outbox w)
             (logs w ++ [closing_log c])).
Proof.
  intros Hdb. unfold settle, catch, andThen, reject, resolve, query, logger.
  now rewrite (exec_error_update _ _ _ _ _ Hdb).
Qed.

Lemma settle_failure_refused (env : Environment) (c : SendCall)
    (e refusal : Error) (w : World) :
  db_fault env (error_update c (substring0 255 (message e))) = Some refusal ->
  settle env c (Rejected e) w
  = (Rejected refusal,
     mkWorld (committed w) (inTransaction w) (clock w + 1) (outbox w) (logs w)).
Proof.
  intros Hdb. unfold settle, catch, andThen, reject, resolve, query, logger.
  now rewrite (exec_refused _ _ _ _ _ Hdb).
Qed.

Lemma settle_success_accepted (env : Environment) (c : SendCall)
    (messageId : option string) (w : World) :
  db_fault env (sending_update c messageId) = None ->
  settle env c (Resolved messageId) w
  = (Resolved tt,
     mkWorld (record_updated c (set_sending c (clock w) messageId)
                (committed w))
             (inTransaction w) (clock w + 1) (outbox w)
             (logs w ++ [closing_log c])).
Proof.
  intros Hdb. unfold settle, catch, andThen, reject, resolve, query, logger.
  now rewrite (exec_sending_update _ _ _ _ _ Hdb).
Qed.

Lemma settle_success_refused (env : Environment) (c : SendCall)
    (messageId : option string) (refusal : Error) (w : World) :
  db_fault env (sending_update c messageId) = Some refusal ->
  settle env c (Resolved messageId) w
  = settle env c (Rejected refusal)
           (mkWorld (committed w) (inTransaction w) (clock w + 1) (outbox w)
                    (logs w)).
Proof.
  intros Hdb. unfold settle, catch, andThen, reject, resolve, query, logger.
  now rewrite (exec_refused _ _ _ _ _ Hdb).
Qed.

Lemma settle_resolves_or_refused (env : Environment) (c : SendCall)
    (outcome : Result (option string)) (w : World) :
  fst (settle env c outcome w) = Resolved tt
  \/ exists e refusal,
       db_fault env (error_update c (substring0 255 (message e))) = Some refusal
       /\ fst (settle env c outcome w) = Rejected refusal.
Proof.
  assert (Hfailure : forall e w0,
             fst (settle env c (Rejected e) w0) = Resolved tt
             \/ exists e0 refusal,
                  db_fault env (error_update c (substring0 255 (message e0)))
                  = Some refusal
                  /\ fst (settle env c (Rejected e) w0) = Rejected refusal).
  { intros e w0.
    destruct (db_fault env (error_update c (substring0 255 (message e))))
      as [refusal|] eqn:Hdb.
    - right. exists e, refusal.
      now rewrite (settle_failure_refused _ _ _ _ _ Hdb).
    - left. now rewrite settle_failure_accepted. }
  destruct outcome as [messageId|e]; [| apply Hfailure].
  destruct (db_fault env (sending_update c messageId)) as [refusal|] eqn:Hs.
  - rewrite (settle_success_refused _ _ _ _ _ Hs). apply Hfailure.
  - left. now rewrite settle_success_accepted.
Qed.

Lemma settle_outbox (env : Environment) (c : SendCall)
    (outcome : Result (option string)) (w : World) :
  outbox (snd (settle env c outcome w)) = outbox w.
Proof.
  unfold settle, catch, andThen, reject, resolve, query, logger.
  destruct outcome as [messageId|e]; simpl; run_exec; reflexivity.
Qed.

(** The transport sees exactly [transport_calls], whatever the outcome. *)
Lemma sendMessage_outbox (env : Environment) (cfg : Config) (c : SendCall)
    (w : World) :
  outbox (snd (sendMessage env cfg c w))
  = (outbox w ++ transport_calls env cfg c)%list.
Proof. now rewrite sendMessage_settles, settle_outbox. Qed.

Lemma invalid_recipient_outcome (env : Environment) (cfg : Config)
    (c : SendCall) :
  recipient_ok env cfg c = false ->
  transport_outcome env cfg c
  = Rejected (mkError "Recipient is incorrectly formatted")
  /\ transport_calls env cfg c = [].
Proof.
  destruct c as [self row recipient ps text campaign | self m]; simpl.
  - now destruct (normalisePhoneNumber env recipient (defaultCountry cfg)).
  - unfold rendered_mail. now intros ->.
Qed.

Lemma record_set_error (c : SendCall) (now : Z) (error : string) (t : Tables) :
  Forall2 (fun r r' =>
             if Z.eqb (rec_id r) (record_id c)
             then rec_status r' = ERROR /\ rec_error_code r' = Some error
                  /\ rec_delivered_at r' = Some now
                  /\ rec_updated_at r' = Some now
             else r' = r)
          (ops c t) (ops c (record_updated c (set_error now error) t)).
Proof.
  unfold record_updated. rewrite with_ops_ops.
  eapply Forall2_weaken; [| apply update_where_rows].
  intros r r' ->. now destruct (Z.eqb (rec_id r) (record_id c)).
Qed.

Lemma record_set_sending (c : SendCall) (now : Z) (messageId : option string)
    (t : Tables) :
  Forall2 (fun r r' =>
             if Z.eqb (rec_id r) (record_id c)
             then rec_status r' = SENDING
                  /\ rec_delivered_at r' = Some now
                  /\ rec_updated_at r' = Some now
                  /\ rec_message_id r'
                     = match c with
                       | SmsCall _ _ _ _ _ _ => messageId
                       | EmailCall _ _ => rec_message_id r
                       end
             else r' = r)
          (ops c t)
          (ops c (record_updated c (set_sending c now messageId) t)).
Proof.
  unfold record_updated. rewrite with_ops_ops.
  eapply Forall2_weaken; [| apply update_where_rows].
  intros r r' ->. destruct (Z.eqb (rec_id r) (record_id c)); [| reflexivity].
  now destruct c.
Qed.

(** ** Failures of one message (C3) *)

(** C3, as stated, fails: [sendMessage] does not always resolve.  With a
    database that refuses the status update, the malformed recipient sends
    both workers into their catch handler, the ERROR update issued there is
    refused, and the promise rejects with the database's error; the record
    is left as it was. *)
Lemma sendMessage_rejects_when_error_update_is_refused :
  SMS.sendMessage Sample.envDatabaseDown Sample.cfg Sample.sms 2
    "not-a-number" [] "Hello world" (Some 1) Sample.world
  = (Rejected (mkError "Connection terminated unexpectedly"),
     mkWorld Sample.tables None 101 [] [])
  /\ Email.sendMessage Sample.envDatabaseDown Sample.cfg Sample.mailer
       (Sample.mail "malformed" 2) Sample.world
     = (Rejected (mkError "Connection terminated unexpectedly"),
        mkWorld Sample.tables None 101 [] []).
Proof. split; reflexivity. Qed.

(** C3 (amended): [sendMessage] of either worker resolves unless the ERROR
    update it issues in its catch handler is itself refused by the database,
    in which case it rejects with that refusal.  If validation, rendering or
    the transport fails with [e] and the ERROR update is accepted, the call
    resolves having updated only that record, to status ERROR with [e]'s
    message cut to its first 255 characters. *)
Theorem sendMessage_isolates_failure (env : Environment) (cfg : Config)
    (c : SendCall) (w : World) :
  (fst (sendMessage env cfg c w) = Resolved tt
   \/ exists e refusal,
        db_fault env (error_update c (substring0 255 (message e)))
        = Some refusal
        /\ fst (sendMessage env cfg c w) = Rejected refusal)
  /\ forall e,
       transport_outcome env cfg c = Rejected e ->
       db_fault env (error_update c (substring0 255 (message e))) = None ->
       fst (sendMessage env cfg c w) = Resolved tt
       /\ (String.length (substring0 255 (message e)) <= 255)%nat
       /\ (exists rest,
             message e = (substring0 255 (message e) ++ rest)%string)
       /\ committed (snd (sendMessage env cfg c w))
          = record_updated c
              (set_error (clock w) (substring0 255 (message e))) (committed w)
       /\ Forall2 (fun r r' =>
                     if Z.eqb (rec_id r) (record_id c)
                     then rec_status r' = ERROR
                          /\ rec_error_code r'
                             = Some (substring0 255 (message e))
                          /\ rec_delivered_at r' = Some (clock w)
                          /\ rec_updated_at r' = Some (clock w)
                     else r' = r)
                  (ops c (committed w))
                  (ops c (committed (snd (sendMessage env cfg c w)))).
Proof.
  rewrite sendMessage_settles. split.
  - apply settle_resolves_or_refused.
  - intros e -> Hdb. rewrite settle_failure_accepted by exact Hdb. simpl.
    split; [reflexivity | split; [apply substring0_length |]].
    split; [apply substring0_prefix | split; [reflexivity |]].
    apply record_set_error.
Qed.

(** A malformed phone number with a healthy database: the call resolves and
    record 2 alone is set to ERROR. *)
Lemma sendMessage_isolates_failure_witness :
  transport_outcome Sample.env Sample.cfg Sample.malformedSms
  = Rejected (mkError "Recipient is incorrectly formatted")
  /\ db_fault Sample.env
       (error_update Sample.malformedSms "Recipient is incorrectly formatted")
     = None
  /\ fst (sendMessage Sample.env Sample.cfg Sample.malformedSms Sample.world)
     = Resolved tt
  /\ sms_ops (committed (snd (sendMessage Sample.env Sample.cfg
                                 Sample.malformedSms Sample.world)))
     = [mkRecord 1 1 "98765432" UNSENT None None None None;
        mkRecord 2 1 "not-a-number" ERROR None
                 (Some "Recipient is incorrectly formatted")
                 (Some 100) (Some 100)].
Proof.
  destruct (sendMessage_isolates_failure Sample.env Sample.cfg
              Sample.malformedSms Sample.world) as [_ Hfailure].
  destruct (Hfailure _ eq_refl eq_refl) as (Hresolved & _ & _ & Hcommitted & _).
  split; [reflexivity | split; [reflexivity | split; [exact Hresolved |]]].
  rewrite Hcommitted. reflexivity.
Defined.

(** ** A successful send (C4) *)

(** With a client in place, the id a successful SMS call comes to is the one
    the gateway's [send] returned for the normalised recipient and the
    rendered body. *)
Lemma gateway_id_is_recorded (env : Environment) (cfg : Config) (self : SMS.t)
    (row : Z) (recipient : string) (ps : Params) (text : string)
    (campaign : option Z) (client : SmsClient) (messageId : option string) :
  SMS.smsClient self = Some client ->
  transport_outcome env cfg (SmsCall self row recipient ps text campaign)
  = Resolved messageId ->
  exists normalised rendered sent,
    normalisePhoneNumber env recipient (defaultCountry cfg) = Resolved normalised
    /\ template env XSS_SMS_OPTION (Some text) ps = Resolved rendered
    /\ smsClient_send env client row normalised rendered campaign
       = Resolved sent
    /\ messageId = Some sent.
Proof.
  simpl. intros ->.
  destruct (normalisePhoneNumber env recipient (defaultCountry cfg))
    as [normalised|]; [| discriminate].
  destruct (template env XSS_SMS_OPTION (Some text) ps) as [rendered|];
    [| discriminate].
  destruct (smsClient_send env client row normalised rendered campaign)
    as [sent|] eqn:Hsent; [| discriminate].
  intros [= <-]. now exists normalised, rendered, sent.
Qed.

(** C4, as stated, fails for the email worker: the mail service hands back
    the id "ses-1" for message 1, the record becomes SENDING, and its
    provider message id is still empty. *)
Lemma email_sendMessage_records_no_provider_id :
  transport_outcome Sample.env Sample.cfg Sample.validEmail
  = Resolved (Some "ses-1")
  /\ fst (Email.sendMessage Sample.env Sample.cfg Sample.mailer
            (Sample.mail "user@agency.gov.sg" 1) Sample.world)
     = Resolved tt
  /\ email_ops (committed (snd (Email.sendMessage Sample.env Sample.cfg
                                  Sample.mailer
                                  (Sample.mail "user@agency.gov.sg" 1)
                                  Sample.world)))
     = [mkRecord 1 1 "user@agency.gov.sg" SENDING None None (Some 100)
                 (Some 100);
        mkRecord 2 1 "malformed" UNSENT None None None None].
Proof. repeat split; reflexivity. Qed.

(** C4 (amended): for every message whose send succeeds and whose SENDING
    update the database accepts, [sendMessage] resolves having updated only
    that record to status SENDING, with [delivered_at] and [updated_at] set
    to the database time of the update; the SMS worker stores the message
    id the gateway assigned, the email worker leaves the record's message
    id as it was. *)
Theorem sendMessage_marks_sending (env : Environment) (cfg : Config)
    (c : SendCall) (w : World) (messageId : option string) :
  transport_outcome env cfg c = Resolved messageId ->
  db_fault env (sending_update c messageId) = None ->
  fst (sendMessage env cfg c w) = Resolved tt
  /\ clock (snd (sendMessage env cfg c w)) = clock w + 1
  /\ committed (snd (sendMessage env cfg c w))
     = record_updated c (set_sending c (clock w) messageId) (committed w)
  /\ Forall2 (fun r r' =>
                if Z.eqb (rec_id r) (record_id c)
                then rec_status r' = SENDING
                     /\ rec_delivered_at r' = Some (clock w)
                     /\ rec_updated_at r' = Some (clock w)
                     /\ rec_message_id r'
                        = match c with
                          | SmsCall _ _ _ _ _ _ => messageId
                          | EmailCall _ _ => rec_message_id r
                          end
                else r' = r)
             (ops c (committed w))
             (ops c (committed (snd (sendMessage env cfg c w))))
  /\ (forall self row recipient ps text campaign client,
        c = SmsCall self row recipient ps text campaign ->
        SMS.smsClient self = Some client ->
        exists normalised rendered sent,
          normalisePhoneNumber env recipient (defaultCountry cfg)
          = Resolved normalised
          /\ template env XSS_SMS_OPTION (Some text) ps = Resolved rendered
          /\ smsClient_send env client row normalised rendered campaign
             = Resolved sent
          /\ messageId = Some sent).
Proof.
  intros Hout Hdb. rewrite sendMessage_settles, Hout.
  rewrite settle_success_accepted by exact Hdb. simpl.
  split; [reflexivity | split; [reflexivity | split; [reflexivity |]]].
  split; [apply record_set_sending |].
  intros self row recipient ps text campaign client -> Hclient.
  exact (gateway_id_is_recorded env cfg self row recipient ps text campaign
           client messageId Hclient Hout).
Qed.

(** The SMS worker with its Twilio client: record 1 becomes SENDING and
    carries the gateway's id "SM1". *)
Lemma sendMessage_marks_sending_witness :
  transport_outcome Sample.env Sample.cfg Sample.validSms
  = Resolved (Some "SM1")
  /\ db_fault Sample.env (sending_update Sample.validSms (Some "SM1")) = None
  /\ fst (sendMessage Sample.env Sample.cfg Sample.validSms Sample.world)
     = Resolved tt
  /\ sms_ops (committed (snd (sendMessage Sample.env Sample.cfg
                                 Sample.validSms Sample.world)))
     = [mkRecord 1 1 "98765432" SENDING (Some "SM1") None (Some 100)
                 (Some 100);
        mkRecord 2 1 "not-a-number" UNSENT None None None None].
Proof.
  destruct (sendMessage_marks_sending Sample.env Sample.cfg Sample.validSms
              Sample.world (Some "SM1") eq_refl eq_refl)
    as (Hresolved & _ & Hcommitted & _ & _).
  split; [reflexivity | split; [reflexivity | split; [exact Hresolved |]]].
  rewrite Hcommitted. reflexivity.
Defined.

(** ** Validation comes first (C5) *)

(** C5, as stated, fails: the record of an invalid recipient is not always
    set to ERROR.  With the database unreachable the malformed recipients of
    the sample campaign are turned down and nothing is sent, but the ERROR
    update is refused and both records stay UNSENT. *)
Lemma invalid_recipient_can_stay_unsent :
  recipient_ok Sample.envDatabaseDown Sample.cfg Sample.malformedSms = false
  /\ recipient_ok Sample.envDatabaseDown Sample.cfg Sample.malformedEmail
     = false
  /\ outbox (snd (sendMessage Sample.envDatabaseDown Sample.cfg
                    Sample.malformedSms Sample.world)) = []
  /\ outbox (snd (sendMessage Sample.envDatabaseDown Sample.cfg
                    Sample.malformedEmail Sample.world)) = []
  /\ map rec_status
         (sms_ops (committed (snd (sendMessage Sample.envDatabaseDown
                                     Sample.cfg Sample.malformedSms
                                     Sample.world))))
     = [UNSENT; UNSENT]
  /\ map rec_status
         (email_ops (committed (snd (sendMessage Sample.envDatabaseDown
                                       Sample.cfg Sample.malformedEmail
                                       Sample.world))))
     = [UNSENT; UNSENT].
Proof. repeat split; reflexivity. Qed.

(** C5 (amended): the recipient is validated before anything is sent.  When
    the email recipient is not a well-formed address, or the SMS recipient
    does not normalise under the configured default country, the failure is
    'Recipient is incorrectly formatted', no call reaches the transport, and
    the call does exactly what issuing the ERROR update of that record (then
    the closing log line) does: when the database accepts that update the
    record is in status ERROR with that error. *)
Theorem invalid_recipient_is_not_sent (env : Environment) (cfg : Config)
    (c : SendCall) (w : World) :
  recipient_ok env cfg c = false ->
  transport_outcome env cfg c
  = Rejected (mkError "Recipient is incorrectly formatted")
  /\ transport_calls env cfg c = []
  /\ outbox (snd (sendMessage env cfg c w)) = outbox w
  /\ sendMessage env cfg c w
     = (query env (error_update c "Recipient is incorrectly formatted") None ;;;
        logger (closing_log c)) w
  /\ (db_fault env (error_update c "Recipient is incorrectly formatted") = None ->
      fst (sendMessage env cfg c w) = Resolved tt
      /\ Forall2 (fun r r' =>
                    if Z.eqb (rec_id r) (record_id c)
                    then rec_status r' = ERROR
                         /\ rec_error_code r'
                            = Some "Recipient is incorrectly formatted"
                         /\ rec_delivered_at r' = Some (clock w)
                         /\ rec_updated_at r' = Some (clock w)
                    else r' = r)
                 (ops c (committed w))
                 (ops c (committed (snd (sendMessage env cfg c w))))).
Proof.
  intros Hbad. destruct (invalid_recipient_outcome env cfg c Hbad) as [Hout Hcalls].
  split; [exact Hout | split; [exact Hcalls |]].
  split; [| split].
  - now rewrite sendMessage_outbox, Hcalls, app_nil_r.
  - rewrite sendMessage_settles, Hout, Hcalls, handed_over_nil.
    unfold settle, catch, andThen, reject, resolve, query, logger. simpl.
    change (substring0 255 "Recipient is incorrectly formatted")
      with "Recipient is incorrectly formatted".
    now run_exec.
  - intros Hdb. rewrite sendMessage_settles, Hout, Hcalls, handed_over_nil.
    rewrite settle_failure_accepted by exact Hdb. simpl.
    split; [reflexivity |]. apply record_set_error.
Qed.

(** The malformed address of the sample campaign: nothing is mailed and
    record 2 of [email_ops] is set to ERROR. *)
Lemma invalid_recipient_is_not_sent_witness :
  recipient_ok Sample.env Sample.cfg Sample.malformedEmail = false
  /\ outbox (snd (sendMessage Sample.env Sample.cfg Sample.malformedEmail
                    Sample.world)) = []
  /\ email_ops (committed (snd (sendMessage Sample.env Sample.cfg
                                   Sample.malformedEmail Sample.world)))
     = [mkRecord 1 1 "user@agency.gov.sg" UNSENT None None None None;
        mkRecord 2 1 "malformed" ERROR None
                 (Some "Recipient is incorrectly formatted")
                 (Some 100) (Some 100)].
Proof.
  destruct (invalid_recipient_is_not_sent Sample.env Sample.cfg
              Sample.malformedEmail Sample.world eq_refl)
    as (_ & _ & Houtbox & Hcall & _).
  split; [reflexivity | split; [exact Houtbox |]].
  rewrite Hcall. reflexivity.
Defined.

(** ** The SMS worker's client (C7, C8, C10) *)

Lemma no_client_before_setup (workerId : string) :
  SMS.smsClient (SMS.new workerId) = None.
Proof. reflexivity. Qed.

Lemma no_client_after_destroy (self : SMS.t) :
  SMS.smsClient (SMS.destroySendingService self) = None.
Proof. reflexivity. Qed.

Lemma no_client_outcome (env : Environment) (cfg : Config) (self : SMS.t)
    (row : Z) (recipient : string) (ps : Params) (text : string)
    (campaign : option Z) (normalised : string) :
  SMS.smsClient self = None ->
  normalisePhoneNumber env recipient (defaultCountry cfg) = Resolved normalised ->
  transport_outcome env cfg (SmsCall self row recipient ps text campaign)
  = Resolved None
  /\ transport_calls env cfg (SmsCall self row recipient ps text campaign) = [].
Proof. simpl. now intros -> ->. Qed.

(** C10: what the code does where the claim expects SENDING.  The SMS
    worker holds no client and the recipient is well formed, so the send is
    skipped and the SENDING update is issued with [messageId] undefined.  A
    query layer that refuses that statement, as sequelize does for a named
    replacement without a value, sends the call into its catch handler:
    nothing is handed to a transport and no record is set to SENDING; when
    the ERROR update is accepted the call resolves and that record alone is
    set to ERROR, with the refusal's message cut to 255 characters and its
    provider message id as it was; when the ERROR update is refused too the
    call rejects with that second refusal and the tables are as they
    were. *)
Theorem sendMessage_without_client (env : Environment) (cfg : Config)
    (self : SMS.t) (row : Z) (recipient : string) (ps : Params)
    (text : string) (campaign : option Z) (normalised : string)
    (refusal : Error) (w : World) :
  SMS.smsClient self = None ->
  normalisePhoneNumber env recipient (defaultCountry cfg) = Resolved normalised ->
  db_fault env (UpdateSmsOpsSending row None) = Some refusal ->
  outbox (snd (SMS.sendMessage env cfg self row recipient ps text campaign w))
  = outbox w
  /\ Forall2 (fun r r' => rec_status r' = SENDING -> r' = r)
             (sms_ops (committed w))
             (sms_ops (committed (snd (SMS.sendMessage env cfg self row
                                         recipient ps text campaign w))))
  /\ (db_fault env (UpdateSmsOpsError row (substring0 255 (message refusal)))
      = None ->
      fst (SMS.sendMessage env cfg self row recipient ps text campaign w)
      = Resolved tt
      /\ Forall2 (fun r r' =>
                    if Z.eqb (rec_id r) row
                    then rec_status r' = ERROR
                         /\ rec_error_code r'
                            = Some (substring0 255 (message refusal))
                         /\ rec_message_id r' = rec_message_id r
                         /\ rec_delivered_at r' = Some (clock w + 1)
                         /\ rec_updated_at r' = Some (clock w + 1)
                    else r' = r)
                 (sms_ops (committed w))
                 (sms_ops (committed (snd (SMS.sendMessage env cfg self row
                                             recipient ps text campaign w)))))
  /\ (forall second,
        db_fault env (UpdateSmsOpsError row (substring0 255 (message refusal)))
        = Some second ->
        fst (SMS.sendMessage env cfg self row recipient ps text campaign w)
        = Rejected second
        /\ committed (snd (SMS.sendMessage env cfg self row recipient ps text
                             campaign w))
           = committed w).
Proof.
  intros Hnone Hok Hrefused.
  set (c := SmsCall self row recipient ps text campaign).
  change (SMS.sendMessage env cfg self row recipient ps text campaign w)
    with (sendMessage env cfg c w).
  destruct (no_client_outcome env cfg self row recipient ps text campaign
              normalised Hnone Hok) as [Hout Hcalls].
  fold c in Hout, Hcalls.
  assert (Haccepted :
            db_fault env (UpdateSmsOpsError row
                            (substring0 255 (message refusal))) = None ->
            sendMessage env cfg c w
            = (Resolved tt,
               mkWorld (record_updated c
                          (set_error (clock w + 1)
                             (substring0 255 (message refusal)))
                          (committed w))
                       (inTransaction w) (clock w + 1 + 1) (outbox w)
                       (logs w ++ [closing_log c]))).
  { intros Hdb. rewrite sendMessage_settles, Hout, Hcalls, handed_over_nil.
    rewrite (settle_success_refused env c None refusal w Hrefused).
    now rewrite (settle_failure_accepted env c refusal _ Hdb). }
  assert (Hsecond : forall second,
            db_fault env (UpdateSmsOpsError row
                            (substring0 255 (message refusal))) = Some second ->
            sendMessage env cfg c w
            = (Rejected second,
               mkWorld (committed w) (inTransaction w) (clock w + 1 + 1)
                       (outbox w) (logs w))).
  { intros second Hdb.
    rewrite sendMessage_settles, Hout, Hcalls, handed_over_nil.
    rewrite (settle_success_refused env c None refusal w Hrefused).
    now rewrite (settle_failure_refused env c refusal second _ Hdb). }
  assert (Hrows : db_fault env (UpdateSmsOpsError row
                                  (substring0 255 (message refusal))) = None ->
                  Forall2 (fun r r' =>
                             if Z.eqb (rec_id r) row
                             then rec_status r' = ERROR
                                  /\ rec_error_code r'
                                     = Some (substring0 255 (message refusal))
                                  /\ rec_message_id r' = rec_message_id r
                                  /\ rec_delivered_at r' = Some (clock w + 1)
                                  /\ rec_updated_at r' = Some (clock w + 1)
                             else r' = r)
                          (sms_ops (committed w))
                          (sms_ops (committed (snd (sendMessage env cfg c w))))).
  { intros Hdb. rewrite (Haccepted Hdb). simpl.
    eapply Forall2_weaken; [| apply update_where_rows].
    intros r r' ->. cbv beta. now destruct (Z.eqb (rec_id r) row). }
  split; [| split; [| split]].
  - now rewrite sendMessage_outbox, Hcalls, app_nil_r.
  - destruct (db_fault env (UpdateSmsOpsError row
                              (substring0 255 (message refusal))))
      as [second|] eqn:Hdb.
    + rewrite (Hsecond second eq_refl). simpl. now apply Forall2_same.
    + eapply Forall2_weaken; [| exact (Hrows eq_refl)].
      intros r r'. cbv beta. destruct (Z.eqb (rec_id r) row); [| easy].
      intros (Herror & _) Hsending. rewrite Herror in Hsending.
      discriminate Hsending.
  - intros Hdb. split; [now rewrite (Haccepted Hdb) | exact (Hrows Hdb)].
  - intros second Hdb. now rewrite (Hsecond second Hdb).
Qed.

(** Before [setSendingService], with a well-formed number: nothing is sent,
    the call resolves, and record 1 reads ERROR with the query layer's
    message, not SENDING. *)
Lemma sendMessage_without_client_witness :
  SMS.smsClient Sample.sms = None
  /\ normalisePhoneNumber Sample.env "98765432" (defaultCountry Sample.cfg)
     = Resolved "+6598765432"
  /\ db_fault Sample.env (UpdateSmsOpsSending 1 None)
     = Some (Sample.noValue ":messageId")
  /\ outbox (snd (SMS.sendMessage Sample.env Sample.cfg Sample.sms 1
                    "98765432" [] "Hello world" (Some 1) Sample.world)) = []
  /\ fst (SMS.sendMessage Sample.env Sample.cfg Sample.sms 1 "98765432" []
            "Hello world" (Some 1) Sample.world) = Resolved tt
  /\ Forall2 (fun r r' =>
                if Z.eqb (rec_id r) 1
                then rec_status r' = ERROR
                     /\ rec_error_code r'
                        = Some (message (Sample.noValue ":messageId"))
                     /\ rec_message_id r' = rec_message_id r
                     /\ rec_delivered_at r' = Some 101
                     /\ rec_updated_at r' = Some 101
                else r' = r)
             (sms_ops Sample.tables)
             (sms_ops (committed (snd (SMS.sendMessage Sample.env Sample.cfg
                                         Sample.sms 1 "98765432" []
                                         "Hello world" (Some 1)
                                         Sample.world)))).
Proof.
  destruct (sendMessage_without_client Sample.env Sample.cfg Sample.sms 1
              "98765432" [] "Hello world" (Some 1) "+6598765432"
              (Sample.noValue ":messageId") Sample.world
              (no_client_before_setup "worker-1") eq_refl eq_refl)
    as (Houtbox & _ & Haccepted & _).
  destruct (Haccepted eq_refl) as [Hresolved Hrows].
  split; [reflexivity | split; [reflexivity | split; [reflexivity |]]].
  split; [exact Houtbox | split; [exact Hresolved | exact Hrows]].
Defined.

(** C8: if the credentials cannot be resolved, [setSendingService] rejects
    with the resolver's error and the worker, its sending client included,
    is exactly as it was before the call. *)
Theorem setSendingService_failure_keeps_client (env : Environment)
    (cfg : Config) (self : SMS.t) (credentialName : string) (e : Error) :
  getTwilioCredentials env credentialName = Rejected e ->
  SMS.setSendingService env cfg self credentialName = (Rejected e, self).
Proof. unfold SMS.setSendingService. now intros ->. Qed.

(** A name the credential store does not know, asked for while a client
    from an earlier setup is in place: the client stays. *)
Lemma setSendingService_failure_keeps_client_witness :
  getTwilioCredentials Sample.env "no-such-credential"
  = Rejected (mkError "Credential not found")
  /\ SMS.setSendingService Sample.env Sample.cfg Sample.smsReady
       "no-such-credential"
     = (Rejected (mkError "Credential not found"), Sample.smsReady)
  /\ SMS.smsClient Sample.smsReady = Some (TwilioClient Sample.credentials).
Proof.
  split; [reflexivity | split; [| reflexivity]].
  apply (setSendingService_failure_keeps_client Sample.env Sample.cfg
           Sample.smsReady "no-such-credential"
           (mkError "Credential not found")).
  reflexivity.
Defined.

(** C7: the gateway client is chosen once, by [setSendingService], from the
    fallback flag as it stands at that moment: the fallback client when the
    flag is set, the primary client built from the resolved credentials
    otherwise.  [sendMessage] does not read the flag: whatever the flag says
    when a message is sent, the call behaves the same, and every call that
    reaches a transport goes to the client chosen at setup. *)
Theorem client_is_chosen_at_setup (env : Environment) (cfg0 : Config)
    (self self' : SMS.t) (credentialName : string) :
  SMS.setSendingService env cfg0 self credentialName = (Resolved tt, self') ->
  exists client,
    SMS.smsClient self' = Some client
    /\ (exists credentials,
          getTwilioCredentials env credentialName = Resolved credentials
          /\ client = if smsFallback_activate cfg0
                      then SnsSmsClient
                      else TwilioClient credentials)
    /\ forall (cfg : Config) (flag : bool) (row : Z) (recipient : string)
              (ps : Params) (text : string) (campaign : option Z) (w : World),
         SMS.sendMessage env (with_smsFallback flag cfg) self' row recipient
                         ps text campaign w
         = SMS.sendMessage env cfg self' row recipient ps text campaign w
         /\ outbox (snd (SMS.sendMessage env cfg self' row recipient ps text
                           campaign w))
            = (outbox w
                 ++ transport_calls env cfg
                      (SmsCall self' row recipient ps text campaign))%list
         /\ Forall (fun call =>
                      exists to rendered,
                        call = SmsSend client row to rendered campaign)
                   (transport_calls env cfg
                      (SmsCall self' row recipient ps text campaign)).
Proof.
  unfold SMS.setSendingService.
  destruct (getTwilioCredentials env credentialName) as [credentials|e] eqn:Hc;
    intros Hset; inversion Hset; subst self'; clear Hset.
  eexists. split; [reflexivity |]. split; [now exists credentials |].
  intros cfg flag row recipient ps text campaign w.
  split; [reflexivity | split].
  - apply (sendMessage_outbox env cfg
             (SmsCall _ row recipient ps text campaign) w).
  - simpl.
    destruct (normalisePhoneNumber env recipient (defaultCountry cfg));
      [| constructor].
    destruct (template env XSS_SMS_OPTION (Some text) ps); constructor;
      [| constructor].
    now eexists _, _.
Qed.

(** Set up while the flag is off, then send with the flag switched on: the
    message still leaves through the Twilio client chosen at setup. *)
Lemma client_is_chosen_at_setup_witness :
  SMS.setSendingService Sample.env Sample.cfg Sample.sms "twilio"
  = (Resolved tt, Sample.smsReady)
  /\ smsFallback_activate Sample.cfg = false
  /\ outbox (snd (SMS.sendMessage Sample.env
                    (with_smsFallback true Sample.cfg) Sample.smsReady 1
                    "98765432" [] "Hello world" (Some 1) Sample.world))
     = [SmsSend (TwilioClient Sample.credentials) 1 "+6598765432"
                "Hello world" (Some 1)].
Proof.
  destruct (client_is_chosen_at_setup Sample.env Sample.cfg Sample.sms
              Sample.smsReady "twilio" eq_refl)
    as (client & Hclient & _ & Hsend).
  destruct (Hsend Sample.cfg true 1 "98765432" [] "Hello world" (Some 1)
              Sample.world) as (Hsame & Houtbox & _).
  split; [reflexivity | split; [reflexivity |]].
  rewrite Hsame, Houtbox. reflexivity.
Defined.

(** ** Enqueueing (C2) *)

Lemma two_statements_in_one_transaction (env : Environment)
    (first second : Statement) (entry : LogEntry) (w : World) :
  both_or_neither env first second w
    (fst ((transaction (fun transaction =>
             query env first (Some transaction) ;;;
             query env second (Some transaction) ;;;
             resolve tt) ;;;
           logger entry) w))
    (snd ((transaction (fun transaction =>
             query env first (Some transaction) ;;;
             query env second (Some transaction) ;;;
             resolve tt) ;;;
           logger entry) w)).
Proof.
  unfold both_or_neither, transaction, andThen, query, resolve, logger. simpl.
  destruct (exec env (clock w) first (committed w)) as [[q1 t1]|e1] eqn:H1;
    simpl.
  - destruct (exec env (clock w + 1) second t1) as [[q2 t2]|e2] eqn:H2; simpl.
    + split; [reflexivity | left]. now exists q1, t1, q2, t2.
    + split; [reflexivity | right]. exists e2. repeat split.
      right. now exists q1, t1.
  - split; [reflexivity | right]. exists e1. repeat split. now left.
Qed.

(** C2: [enqueueMessages] of either worker runs its enqueue statement and
    its statistics statement inside one transaction.  On the committed
    tables either both took effect, the second on the result of the first,
    and the call resolves; or one of the two statements failed, the call
    rejects with that statement's error, and the committed tables are what
    they were.  No transaction is left open either way. *)
Theorem enqueueMessages_is_atomic (env : Environment) (jobId campaignId : Z)
    (w : World) :
  (forall self : SMS.t,
      both_or_neither env (SelectEnqueueMessagesSms jobId)
        (SelectUpdateStatsSms campaignId) w
        (fst (SMS.enqueueMessages env self jobId campaignId w))
        (snd (SMS.enqueueMessages env self jobId campaignId w)))
  /\ (forall self : Email.t,
        both_or_neither env (SelectEnqueueMessagesEmail jobId)
          (SelectUpdateStatsEmailWithRead campaignId) w
          (fst (Email.enqueueMessages env self jobId campaignId w))
          (snd (Email.enqueueMessages env self jobId campaignId w))).
Proof.
  split; intros self; apply two_statements_in_one_transaction.
Qed.

(** The statistics statement fails after the enqueue statement went through:
    the call rejects and the row the enqueue added is not in the committed
    tables; with a campaign that exists both effects are there. *)
Example enqueueMessages_rolls_back :
  SMS.enqueueMessages Sample.env Sample.sms 5 (-1) Sample.world
  = (Rejected (mkError "campaign does not exist"),
     mkWorld Sample.tables None 102 [] [])
  /\ SMS.enqueueMessages Sample.env Sample.sms 5 1 Sample.world
     = (Resolved tt,
        mkWorld
          (mkTables
             (sms_ops Sample.tables
                ++ [mkRecord 5 1 "91234567" UNSENT None None None None])
             (email_ops Sample.tables) (users Sample.tables)
             (campaigns Sample.tables) [mkStatistics 1 3 0])
          None 102 []
          [LogInfo "Enqueued sms messages" "worker-1" 5 "enqueueMessages"]).
Proof. split; reflexivity. Qed.

(** ** Fetching a batch (C6, C9) *)

Lemma sms_getMessages_fetched (env : Environment) (cfg : Config)
    (self : SMS.t) (jobId rate : Z) (w : World) (q : QueryResult)
    (t' : Tables) :
  exec env (clock w) (SelectGetMessagesToSendSms jobId rate) (committed w)
  = Resolved (q, t') ->
  let fetched := map get_messages_to_send_sms_col (smsRows q) in
  fst (SMS.getMessages env cfg self jobId rate w)
  = match fetched with
    | first :: _ =>
        if phonebookContactPref_enabled cfg then
          match owner_lookup env (clock w + 1) (Some (sms_campaignId first))
                  t' with
          | Resolved userEmail =>
              match getMessagesWithContactPrefLinks env fetched
                      (sms_campaignId first) userEmail with
              | Resolved enriched => Resolved enriched
              | Rejected _ => Resolved fetched
              end
          | Rejected _ => Resolved fetched
          end
        else Resolved fetched
    | [] => Resolved fetched
    end.
Proof.
  intros Hfetch fetched.
  unfold SMS.getMessages, andThen, catch, query, lift, resolve, reject, logger,
    owner_lookup.
  rewrite Hfetch. simpl. fold fetched.
  destruct fetched as [|first rest]; simpl.
  - now rewrite andb_false_r.
  - rewrite andb_true_r.
    destruct (phonebookContactPref_enabled cfg); simpl; [| reflexivity].
    destruct (exec env (clock w + 1)
                (SelectCampaignOwnerEmail (Some (sms_campaignId first))) t')
      as [[q1 t1]|e1]; simpl; [| reflexivity].
    destruct (ownerEmailRows q1) as [|owner others]; simpl; [reflexivity |].
    now destruct (getMessagesWithContactPrefLinks env (first :: rest)
                    (sms_campaignId first) (email owner)).
Qed.

Lemma email_getMessages_fetched (env : Environment) (cfg : Config)
    (self : Email.t) (jobId rate : Z) (w : World) (q : QueryResult)
    (t' : Tables) :
  exec env (clock w) (SelectGetMessagesToSendEmailWithAgency jobId rate)
       (committed w)
  = Resolved (q, t') ->
  fst (Email.getMessages env cfg self jobId rate w)
  = match emailRows q with
    | first :: _ =>
        if phonebookContactPref_enabled cfg then
          match owner_lookup env (clock w + 1)
                  (campaignId (row_message first)) t' with
          | Resolved userEmail =>
              match Email.getContactPrefLinksForEmail env cfg (emailRows q)
                      (campaignId (row_message first)) userEmail with
              | Resolved enriched => Resolved enriched
              | Rejected _ => Resolved (unenriched cfg (emailRows q))
              end
          | Rejected _ => Resolved (unenriched cfg (emailRows q))
          end
        else Resolved (unenriched cfg (emailRows q))
    | [] => Resolved (unenriched cfg (emailRows q))
    end.
Proof.
  intros Hfetch.
  unfold Email.getMessages, andThen, catch, query, lift, resolve, reject,
    logger, owner_lookup, unenriched.
  rewrite Hfetch. simpl.
  destruct (emailRows q) as [|first rest]; simpl.
  - now rewrite andb_false_r.
  - rewrite andb_true_r.
    destruct (phonebookContactPref_enabled cfg); simpl; [| reflexivity].
    destruct (exec env (clock w + 1)
                (SelectCampaignOwnerEmail (campaignId (row_message first))) t')
      as [[q1 t1]|e1]; simpl; [| reflexivity].
    destruct (ownerEmailRows q1) as [|owner others]; simpl; [reflexivity |].
    now destruct (Email.getContactPrefLinksForEmail env cfg (first :: rest)
                    (campaignId (row_message first)) (email owner)).
Qed.

Lemma Forall2_map_self {A B : Type} (P : A -> B -> Prop) (f : A -> B)
    (l : list A) :
  (forall a, P a (f a)) -> Forall2 P l (map f l).
Proof. intros H. induction l; simpl; constructor; auto. Qed.

(** [getMessages] of the SMS worker once the fetch went through: result and
    world in full. *)
Lemma sms_getMessages_run (env : Environment) (cfg : Config) (self : SMS.t)
    (jobId rate : Z) (w : World) (q : QueryResult) (t' : Tables) :
  exec env (clock w) (SelectGetMessagesToSendSms jobId rate) (committed w)
  = Resolved (q, t') ->
  SMS.getMessages env cfg self jobId rate w
  = match map get_messages_to_send_sms_col (smsRows q) with
    | [] =>
        (Resolved [],
         mkWorld t' (inTransaction w) (clock w + 1) (outbox w) (logs w))
    | first :: rest =>
        if phonebookContactPref_enabled cfg then
          match enrichment_outcome
                  (owner_lookup env (clock w + 1)
                     (Some (sms_campaignId first)) t')
                  (getMessagesWithContactPrefLinks env (first :: rest)
                     (sms_campaignId first)) with
          | Resolved enriched =>
              (Resolved enriched,
               mkWorld t' (inTransaction w) (clock w + 1 + 1) (outbox w)
                       (logs w))
          | Rejected e =>
              (Resolved (first :: rest),
               mkWorld t' (inTransaction w) (clock w + 1 + 1) (outbox w)
                       (logs w ++ [enrichment_log (SMS.workerId self) e]))
          end
        else
          (Resolved (first :: rest),
           mkWorld t' (inTransaction w) (clock w + 1) (outbox w) (logs w))
    end.
Proof.
  intros Hfetch.
  unfold SMS.getMessages, andThen, catch, query, lift, resolve, reject, logger,
    enrichment_outcome, owner_lookup, enrichment_log.
  rewrite Hfetch. simpl.
  destruct (map get_messages_to_send_sms_col (smsRows q)) as [|first rest];
    simpl.
  - now rewrite andb_false_r.
  - rewrite andb_true_r.
    destruct (phonebookContactPref_enabled cfg); simpl; [| reflexivity].
    unfold exec.
    destruct (db_fault env (SelectCampaignOwnerEmail
                              (Some (sms_campaignId first))));
      simpl; [reflexivity |].
    destruct (select_owner_email (Some (sms_campaignId first)) t')
      as [rows|e1]; simpl; [| reflexivity].
    destruct rows as [|owner others]; simpl; [reflexivity |].
    now destruct (getMessagesWithContactPrefLinks env (first :: rest)
                    (sms_campaignId first) (email owner)).
Qed.

Lemma email_getMessages_run (env : Environment) (cfg : Config)
    (self : Email.t) (jobId rate : Z) (w : World) (q : QueryResult)
    (t' : Tables) :
  exec env (clock w) (SelectGetMessagesToSendEmailWithAgency jobId rate)
       (committed w)
  = Resolved (q, t') ->
  Email.getMessages env cfg self jobId rate w
  = match emailRows q with
    | [] =>
        (Resolved [],
         mkWorld t' (inTransaction w) (clock w + 1) (outbox w) (logs w))
    | first :: rest =>
        if phonebookContactPref_enabled cfg then
          match enrichment_outcome
                  (owner_lookup env (clock w + 1)
                     (campaignId (row_message first)) t')
                  (Email.getContactPrefLinksForEmail env cfg (first :: rest)
                     (campaignId (row_message first))) with
          | Resolved enriched =>
              (Resolved enriched,
               mkWorld t' (inTransaction w) (clock w + 1 + 1) (outbox w)
                       (logs w))
          | Rejected e =>
              (Resolved (unenriched cfg (first :: rest)),
               mkWorld t' (inTransaction w) (clock w + 1 + 1) (outbox w)
                       (logs w ++ [enrichment_log (Email.workerId self) e]))
          end
        else
          (Resolved (unenriched cfg (first :: rest)),
           mkWorld t' (inTransaction w) (clock w + 1) (outbox w) (logs w))
    end.
Proof.
  intros Hfetch.
  unfold Email.getMessages, andThen, catch, query, lift, resolve, reject,
    logger, enrichment_outcome, owner_lookup, enrichment_log, unenriched.
  rewrite Hfetch. simpl.
  destruct (emailRows q) as [|first rest]; simpl.
  - now rewrite andb_false_r.
  - rewrite andb_true_r.
    destruct (phonebookContactPref_enabled cfg); simpl; [| reflexivity].
    unfold exec.
    destruct (db_fault env (SelectCampaignOwnerEmail
                              (campaignId (row_message first))));
      simpl; [reflexivity |].
    destruct (select_owner_email (campaignId (row_message first)) t')
      as [rows|e1]; simpl; [| reflexivity].
    destruct rows as [|owner others]; simpl; [reflexivity |].
    now destruct (Email.getContactPrefLinksForEmail env cfg (first :: rest)
                    (campaignId (row_message first)) (email owner)).
Qed.

(** C6, as stated, fails on "never delays": the owner lookup is awaited
    before the batch is handed back.  The owner of the sample campaign is
    not among the users, so the enrichment fails; with the enrichment
    switched off the batch is back after the fetch, at database time 101,
    and with it switched on the same batch is back one statement later, at
    102. *)
Lemma enrichment_failure_delays_the_batch :
  owner_lookup Sample.env 101 (Some 1) Cases.orphanTables
  = Rejected (mkError
      "Unable to fetch user email from campaign for phonebook contact preference api")
  /\ SMS.getMessages Sample.env Cases.cfgNoPref Sample.sms 1 10
       Cases.orphanWorld
     = (Resolved [mkSmsMessage 1 "98765432" [] "Hello world" 1;
                  mkSmsMessage 2 "not-a-number" [] "Hello world" 1],
        mkWorld Cases.orphanTables None 101 [] [])
  /\ fst (SMS.getMessages Sample.env Sample.cfg Sample.sms 1 10
            Cases.orphanWorld)
     = Resolved [mkSmsMessage 1 "98765432" [] "Hello world" 1;
                 mkSmsMessage 2 "not-a-number" [] "Hello world" 1]
  /\ clock (snd (SMS.getMessages Sample.env Sample.cfg Sample.sms 1 10
                    Cases.orphanWorld)) = 102.
Proof. repeat split; reflexivity. Qed.

(** C6 (amended): with contact-preference enrichment enabled and a non-empty
    batch fetched, no outcome of the enrichment makes [getMessages] reject,
    and the batch is handed back once the owner lookup has been awaited, one
    statement after the fetch.  When the campaign-owner lookup fails, or the
    preference helper called with the owner's email does, [getMessages]
    resolves with every fetched message, unenriched (for the email worker:
    with the masthead flag only), so the batch is not shrunk. *)
Theorem enrichment_failure_keeps_batch (env : Environment) (cfg : Config)
    (jobId rate : Z) (w : World) (q : QueryResult) (t' : Tables) :
  (forall (self : SMS.t) (first : SmsMessage) (rest : list SmsMessage),
      exec env (clock w) (SelectGetMessagesToSendSms jobId rate) (committed w)
      = Resolved (q, t') ->
      map get_messages_to_send_sms_col (smsRows q) = first :: rest ->
      phonebookContactPref_enabled cfg = true ->
      isResolved (fst (SMS.getMessages env cfg self jobId rate w)) = true
      /\ clock (snd (SMS.getMessages env cfg self jobId rate w)) = clock w + 2
      /\ (enrichment_fails
            (owner_lookup env (clock w + 1) (Some (sms_campaignId first)) t')
            (getMessagesWithContactPrefLinks env (first :: rest)
               (sms_campaignId first)) = true ->
          fst (SMS.getMessages env cfg self jobId rate w)
          = Resolved (first :: rest)))
  /\ (forall (self : Email.t) (first : EmailResultRow)
             (rest : list EmailResultRow),
        exec env (clock w) (SelectGetMessagesToSendEmailWithAgency jobId rate)
             (committed w)
        = Resolved (q, t') ->
        emailRows q = first :: rest ->
        phonebookContactPref_enabled cfg = true ->
        isResolved (fst (Email.getMessages env cfg self jobId rate w)) = true
        /\ clock (snd (Email.getMessages env cfg self jobId rate w))
           = clock w + 2
        /\ (enrichment_fails
              (owner_lookup env (clock w + 1) (campaignId (row_message first))
                 t')
              (Email.getContactPrefLinksForEmail env cfg (first :: rest)
                 (campaignId (row_message first))) = true ->
            fst (Email.getMessages env cfg self jobId rate w)
            = Resolved (unenriched cfg (first :: rest))
            /\ List.length (unenriched cfg (first :: rest))
               = List.length (first :: rest))).
Proof.
  split.
  - intros self first rest Hfetch Hrows Hon.
    rewrite (sms_getMessages_run env cfg self jobId rate w q t' Hfetch).
    rewrite Hrows, Hon. unfold enrichment_fails, enrichment_outcome.
    destruct (owner_lookup env (clock w + 1) (Some (sms_campaignId first)) t')
      as [userEmail|e]; simpl; [| repeat split; lia].
    destruct (getMessagesWithContactPrefLinks env (first :: rest)
                (sms_campaignId first) userEmail) as [enriched|e];
      simpl; repeat split; try lia; discriminate.
  - intros self first rest Hfetch Hrows Hon.
    rewrite (email_getMessages_run env cfg self jobId rate w q t' Hfetch).
    rewrite Hrows, Hon. unfold enrichment_fails, enrichment_outcome.
    assert (Hlen : List.length (unenriched cfg (first :: rest))
                   = List.length (first :: rest))
      by (unfold unenriched; apply length_map).
    destruct (owner_lookup env (clock w + 1) (campaignId (row_message first))
                t') as [userEmail|e]; simpl;
      [| repeat split; try lia; exact Hlen].
    destruct (Email.getContactPrefLinksForEmail env cfg (first :: rest)
                (campaignId (row_message first)) userEmail) as [enriched|e];
      simpl; repeat split; try lia; try exact Hlen; discriminate.
Qed.

(** The preference service answers 503: both workers still hand out both
    fetched messages, one statement after the fetch. *)
Lemma enrichment_failure_keeps_batch_witness :
  phonebookContactPref_enabled Sample.cfg = true
  /\ generate_pref_links Sample.envServiceDown
       ["user@agency.gov.sg"; "malformed"] (Some 1) "owner@agency.gov.sg"
     = Rejected (mkError "503 Service Unavailable")
  /\ fst (SMS.getMessages Sample.envServiceDown Sample.cfg Sample.sms 1 10
            Sample.world)
     = Resolved [mkSmsMessage 1 "98765432" [] "Hello world" 1;
                 mkSmsMessage 2 "not-a-number" [] "Hello world" 1]
  /\ clock (snd (SMS.getMessages Sample.envServiceDown Sample.cfg Sample.sms
                    1 10 Sample.world)) = 102
  /\ fst (Email.getMessages Sample.envServiceDown Sample.cfg Sample.mailer 1
            10 Sample.world)
     = Resolved
         (unenriched Sample.cfg
            (map (fun r =>
                    mkEmailResultRow
                      (mkMessage (rec_id r) (rec_recipient r) [] "Hello world"
                         (Some "Greetings") None None (Some 1) (Some "Agency")
                         None
                         (if Z.eqb (rec_id r) 1 then "info@agency.gov.sg"
                          else "info@vendor.example")
                         None None))
                 (email_ops Sample.tables))).
Proof.
  split; [reflexivity | split; [reflexivity |]].
  edestruct (enrichment_failure_keeps_batch Sample.envServiceDown Sample.cfg
               1 10 Sample.world) as [Hsms _].
  edestruct (Hsms Sample.sms) as (_ & Hclock & Hfull); [reflexivity.. |].
  split; [exact (Hfull eq_refl) | split; [exact Hclock |]].
  edestruct (enrichment_failure_keeps_batch Sample.envServiceDown Sample.cfg
               1 10 Sample.world) as [_ Hemail].
  edestruct (Hemail Sample.mailer) as (_ & _ & Hbatch); [reflexivity.. |].
  exact (proj1 (Hbatch eq_refl)).
Defined.

(** C9: once the batch is fetched, the email worker's [getMessages] resolves
    with one message per fetched row, each carrying that row's sender
    address and a [showMasthead] flag that is true exactly when the sender
    address ends with the configured masthead domain, on the plain path and
    on the contact-preference path alike. *)
Theorem every_message_carries_masthead_flag (env : Environment)
    (cfg : Config) (self : Email.t) (jobId rate : Z) (w : World)
    (q : QueryResult) (t' : Tables) :
  exec env (clock w) (SelectGetMessagesToSendEmailWithAgency jobId rate)
       (committed w)
  = Resolved (q, t') ->
  exists ms,
    fst (Email.getMessages env cfg self jobId rate w) = Resolved ms
    /\ Forall2 (fun row m =>
                  senderEmail m = senderEmail (row_message row)
                  /\ showMasthead m
                     = Some (endsWith (senderEmail m) (showMastheadDomain cfg))
                  /\ (showMasthead m = Some true
                      <-> has_suffix (senderEmail m) (showMastheadDomain cfg)))
               (emailRows q) ms.
Proof.
  intros Hfetch.
  rewrite (email_getMessages_fetched env cfg self jobId rate w q t' Hfetch).
  assert (Hflag : forall b s d,
             Some (endsWith s d) = Some b ->
             (Some b = Some true <-> has_suffix s d)).
  { intros b s d [= <-]. rewrite <- endsWith_spec.
    split; [now intros [= ->] | now intros ->]. }
  assert (Hplain : Forall2 (fun row m =>
                      senderEmail m = senderEmail (row_message row)
                      /\ showMasthead m
                         = Some (endsWith (senderEmail m)
                                   (showMastheadDomain cfg))
                      /\ (showMasthead m = Some true
                          <-> has_suffix (senderEmail m)
                                (showMastheadDomain cfg)))
                     (emailRows q) (unenriched cfg (emailRows q))).
  { apply Forall2_map_self. intros row. simpl.
    repeat split; try (now apply Hflag);
      intros H; now apply (Hflag _ _ _ eq_refl). }
  destruct (emailRows q) as [|first rest] eqn:Hrows;
    [now exists (unenriched cfg []) |].
  destruct (phonebookContactPref_enabled cfg); [| now eexists].
  destruct (owner_lookup env (clock w + 1) (campaignId (row_message first))
              t') as [userEmail|e];
    [| now eexists].
  unfold Email.getContactPrefLinksForEmail.
  destruct (generate_pref_links env _ _ userEmail) as [links|e];
    [| now eexists].
  eexists. split; [reflexivity |].
  apply Forall2_map_self. intros row. simpl.
  repeat split; try (now apply Hflag);
    intros H; now apply (Hflag _ _ _ eq_refl).
Qed.

(** The sample batch through the contact-preference path: the agency's
    sender shows the masthead, the vendor's does not, and both messages
    carry their preference link. *)
Lemma every_message_carries_masthead_flag_witness :
  exists ms,
    fst (Email.getMessages Sample.env Sample.cfg Sample.mailer 1 10
           Sample.world) = Resolved ms
    /\ map (fun m => (senderEmail m, showMasthead m, contactPrefLink m)) ms
       = [("info@agency.gov.sg", Some true,
           Some "https://pref.example/user@agency.gov.sg");
          ("info@vendor.example", Some false,
           Some "https://pref.example/malformed")]
    /\ Forall (fun m =>
                 showMasthead m = Some true
                 <-> has_suffix (senderEmail m) ".gov.sg") ms.
Proof.
  edestruct (every_message_carries_masthead_flag Sample.env Sample.cfg
               Sample.mailer 1 10 Sample.world) as (ms & Hms & Hflags);
    [reflexivity |].
  exists ms. split; [exact Hms | split].
  - injection Hms as <-. reflexivity.
  - clear Hms. induction Hflags as [|row m rows ms' (_ & _ & Hiff) _ IH];
      constructor; [exact Hiff | exact IH].
Defined.

(** ** The callback state machine (C1) *)

Lemma transition_keeps_error (i : Callback.Indication) (code : option string)
    (r : MessageRecord) :
  rec_status r = ERROR -> Callback.transition i code r = r.
Proof. unfold Callback.transition. intros ->. now destruct i. Qed.

Lemma ingest_keeps_error (vocabulary : string -> option Callback.Indication)
    (authenticated : bool) (event : Callback.CallbackEvent)
    (records : list MessageRecord) :
  Forall2 (fun r r' => rec_status r = ERROR -> r' = r)
          records
          (snd (Callback.ingest vocabulary authenticated event records)).
Proof.
  unfold Callback.ingest.
  destruct authenticated; simpl; [| now apply Forall2_same].
  destruct (vocabulary (Callback.providerStatus event)) as [i|]; simpl.
  - apply Forall2_map_self. intros r Herror.
    destruct (Callback.tracks event r); [| reflexivity].
    now apply transition_keeps_error.
  - now apply Forall2_same.
Qed.

Lemma Forall2_chain {A : Type} (P : A -> Prop) (l1 l2 l3 : list A) :
  Forall2 (fun a b => P a -> b = a) l1 l2 ->
  Forall2 (fun a b => P a -> b = a) l2 l3 ->
  Forall2 (fun a b => P a -> b = a) l1 l3.
Proof.
  intros H12. revert l3.
  induction H12 as [|a b l1 l2 Hab _ IH]; intros l3 H23;
    inversion H23 as [|b' c l2' l3' Hbc Hrest]; subst; constructor.
  - intros Ha. specialize (Hab Ha). subst b. auto.
  - now apply IH.
Qed.

(** C1: once a record's status is ERROR, no sequence of callbacks moves it.
    Whatever the provider vocabulary, whatever events arrive afterwards and
    in whatever order, authenticated or not, a 'delivered' or 'sent' event
    with the record's own provider message id included, the record is
    left exactly as it was, so its status stays ERROR. *)
Theorem error_is_terminal
    (vocabulary : string -> option Callback.Indication)
    (events : list (bool * Callback.CallbackEvent))
    (records : list MessageRecord) :
  Forall2 (fun r r' => rec_status r = ERROR -> r' = r /\ rec_status r' = ERROR)
          records (Callback.ingestAll vocabulary events records).
Proof.
  apply Forall2_weaken
    with (P := fun r r' => rec_status r = ERROR -> r' = r).
  { intros r r' H Herror. specialize (H Herror). now subst r'. }
  revert records. induction events as [|[authenticated event] events IH];
    intros records; simpl.
  - now apply Forall2_same.
  - eapply Forall2_chain with (P := fun r => rec_status r = ERROR);
      [apply ingest_keeps_error | apply IH].
Qed.

(** The scenario of the callback route test: record with provider id
    "message_id_callback" in UNSENT; "sent" makes it SENT, "failed" with
    code "ERRORBOI" makes it ERROR, a later "delivered" leaves it ERROR. *)
Example callback_scenario :
  let record :=
    mkRecord 1 1 "98765432" UNSENT (Some "message_id_callback") None None None in
  let event status code :=
    (true, Callback.mkEvent "message_id_callback" status code) in
  map rec_status
      (Callback.ingestAll Callback.scenarioVocabulary
         [event "sent" None] [record]) = [SENT]
  /\ map (fun r => (rec_status r, rec_error_code r))
         (Callback.ingestAll Callback.scenarioVocabulary
            [event "sent" None; event "failed" (Some "ERRORBOI")] [record])
     = [(ERROR, Some "ERRORBOI")]
  /\ map (fun r => (rec_status r, rec_error_code r))
         (Callback.ingestAll Callback.scenarioVocabulary
            [event "sent" None; event "failed" (Some "ERRORBOI");
             event "delivered" None] [record])
     = [(ERROR, Some "ERRORBOI")].
Proof. repeat split; reflexivity. Qed.

(** * Further properties of the workers *)

(** ** What [sendMessage] leaves behind *)

Lemma settle_logs (env : Environment) (c : SendCall)
    (outcome : Result (option string)) (w : World) :
  logs (snd (settle env c outcome w))
  = if isResolved (fst (settle env c outcome w))
    then (logs w ++ [closing_log c])%list
    else logs w.
Proof.
  unfold settle, catch, andThen, reject, resolve, query, logger.
  destruct outcome as [messageId|e]; simpl; run_exec; reflexivity.
Qed.

Lemma settle_tables (env : Environment) (c : SendCall)
    (outcome : Result (option string)) (w : World) :
  inTransaction (snd (settle env c outcome w)) = inTransaction w
  /\ (committed (snd (settle env c outcome w)) = committed w
      \/ (exists now error,
            committed (snd (settle env c outcome w))
            = record_updated c (set_error now error) (committed w))
      \/ (exists now messageId,
            committed (snd (settle env c outcome w))
            = record_updated c (set_sending c now messageId) (committed w))).
Proof.
  assert (Hfailure : forall e w0,
             inTransaction (snd (settle env c (Rejected e) w0))
             = inTransaction w0
             /\ (committed (snd (settle env c (Rejected e) w0)) = committed w0
                 \/ exists now error,
                      committed (snd (settle env c (Rejected e) w0))
                      = record_updated c (set_error now error) (committed w0))).
  { intros e w0.
    destruct (db_fault env (error_update c (substring0 255 (message e))))
      as [refusal|] eqn:Hdb.
    - rewrite (settle_failure_refused _ _ _ _ _ Hdb). simpl.
      split; [reflexivity | now left].
    - rewrite (settle_failure_accepted _ _ _ _ Hdb). simpl.
      split; [reflexivity | right]. now eexists _, _. }
  destruct outcome as [messageId|e].
  - destruct (db_fault env (sending_update c messageId)) as [refusal|] eqn:Hs.
    + rewrite (settle_success_refused _ _ _ _ _ Hs).
      destruct (Hfailure refusal
                  (mkWorld (committed w) (inTransaction w) (clock w + 1)
                           (outbox w) (logs w))) as [Htx [Hsame|Herror]].
      * split; [exact Htx | now left].
      * split; [exact Htx | right; now left].
    + rewrite (settle_success_accepted _ _ _ _ Hs). simpl.
      split; [reflexivity | right; right]. now eexists _, _.
  - destruct (Hfailure e w) as [Htx [Hsame|Herror]].
    + split; [exact Htx | now left].
    + split; [exact Htx | right; now left].
Qed.

(** What an update of the call's record leaves alone, for an update [f]
    that keeps a row's id, campaign and recipient. *)
Lemma record_updated_frame (c : SendCall) (f : MessageRecord -> MessageRecord)
    (t : Tables) :
  (forall r, rec_id (f r) = rec_id r
             /\ rec_campaign_id (f r) = rec_campaign_id r
             /\ rec_recipient (f r) = rec_recipient r) ->
  other_ops c (record_updated c f t) = other_ops c t
  /\ users (record_updated c f t) = users t
  /\ campaigns (record_updated c f t) = campaigns t
  /\ statistics (record_updated c f t) = statistics t
  /\ Forall2 (fun r r' =>
                rec_id r' = rec_id r
                /\ rec_campaign_id r' = rec_campaign_id r
                /\ rec_recipient r' = rec_recipient r
                /\ (rec_id r <> record_id c -> r' = r))
             (ops c t) (ops c (record_updated c f t)).
Proof.
  intros Hf. unfold record_updated.
  split; [now destruct c | split; [now destruct c |]].
  split; [now destruct c | split; [now destruct c |]].
  rewrite with_ops_ops.
  eapply Forall2_weaken; [| apply update_where_rows].
  intros r r' ->.
  destruct (Z.eqb_spec (rec_id r) (record_id c)) as [Heq|Hne].
  - destruct (Hf r) as (H1 & H2 & H3). now repeat split.
  - now repeat split.
Qed.

(** X1: whatever the recipient, the transport and the database do,
    [sendMessage] of either worker changes nothing in the committed tables
    but rows of its own ops table that carry the message's id: the other ops
    table, users, campaigns and statistics are as before, no row is added or
    removed, every row keeps its id, campaign and recipient, and rows with
    another id are untouched.  The open transaction, if any, is not
    touched. *)
Theorem sendMessage_writes_one_record (env : Environment) (cfg : Config)
    (c : SendCall) (w : World) :
  inTransaction (snd (sendMessage env cfg c w)) = inTransaction w
  /\ other_ops c (committed (snd (sendMessage env cfg c w)))
     = other_ops c (committed w)
  /\ users (committed (snd (sendMessage env cfg c w))) = users (committed w)
  /\ campaigns (committed (snd (sendMessage env cfg c w)))
     = campaigns (committed w)
  /\ statistics (committed (snd (sendMessage env cfg c w)))
     = statistics (committed w)
  /\ Forall2 (fun r r' =>
                rec_id r' = rec_id r
                /\ rec_campaign_id r' = rec_campaign_id r
                /\ rec_recipient r' = rec_recipient r
                /\ (rec_id r <> record_id c -> r' = r))
             (ops c (committed w))
             (ops c (committed (snd (sendMessage env cfg c w)))).
Proof.
  rewrite sendMessage_settles.
  destruct (settle_tables env c (transport_outcome env cfg c)
              (handed_over (transport_calls env cfg c) w))
    as [Htx [Hsame | [(now & error & Hupd) | (now & messageId & Hupd)]]];
    simpl in Htx; split; try exact Htx.
  - rewrite Hsame. simpl. repeat split.
    apply Forall2_same. now repeat split.
  - rewrite Hupd. simpl. apply record_updated_frame. now intros r.
  - rewrite Hupd. simpl. apply record_updated_frame. intros r. now destruct c.
Qed.

(** X2: [sendMessage] of either worker writes its closing log line ("Sent
    sms message" / "Sent email message", with worker id and message id)
    exactly when it resolves, and nothing else; so the line is also written
    for a message whose validation, rendering or transport failed and whose
    record was set to ERROR. *)
Theorem sendMessage_logs_sent_once (env : Environment) (cfg : Config)
    (c : SendCall) (w : World) :
  logs (snd (sendMessage env cfg c w))
  = (if isResolved (fst (sendMessage env cfg c w))
     then (logs w ++ [closing_log c])%list
     else logs w)
  /\ forall e,
       transport_outcome env cfg c = Rejected e ->
       db_fault env (error_update c (substring0 255 (message e))) = None ->
       logs (snd (sendMessage env cfg c w)) = (logs w ++ [closing_log c])%list.
Proof.
  rewrite sendMessage_settles. split.
  - exact (settle_logs env c (transport_outcome env cfg c)
             (handed_over (transport_calls env cfg c) w)).
  - intros e -> Hdb. now rewrite settle_failure_accepted.
Qed.

(** The malformed number of the sample campaign is logged as sent. *)
Lemma sendMessage_logs_sent_once_witness :
  transport_outcome Sample.env Sample.cfg Sample.malformedSms
  = Rejected (mkError "Recipient is incorrectly formatted")
  /\ logs (snd (sendMessage Sample.env Sample.cfg Sample.malformedSms
                  Sample.world))
     = [LogInfo "Sent sms message" "worker-1" 2 "sendMessage"].
Proof.
  destruct (sendMessage_logs_sent_once Sample.env Sample.cfg
              Sample.malformedSms Sample.world) as [_ Hlogged].
  split; [reflexivity | exact (Hlogged _ eq_refl eq_refl)].
Defined.

(** ** The transport call *)

Lemma mail_reference (env : Environment) (cfg : Config) (m : Message)
    (mail : MailToSend) :
  rendered_mail env cfg m = Resolved mail ->
  mail_messageId mail = toString (id m).
Proof.
  unfold rendered_mail.
  destruct (isEmail env (recipient m)); simpl; [| discriminate].
  destruct (template env XSS_EMAIL_OPTION (subject m) (params m));
    [| discriminate].
  destruct (template env XSS_EMAIL_OPTION (Some (body m)) (params m));
    [| discriminate].
  destruct (Email.generateUnsubLink env cfg (campaignId m) (recipient m));
    [| discriminate].
  destruct (generateThemedHTMLEmail env _); [| discriminate].
  now intros [= <-].
Qed.

Lemma transport_call_shape (env : Environment) (cfg : Config) (c : SendCall) :
  (transport_calls env cfg c = []
   /\ forall sent, transport_outcome env cfg c <> Resolved (Some sent))
  \/ exists call,
       transport_calls env cfg c = [call]
       /\ call_reference call = toString (record_id c)
       /\ transport_outcome env cfg c
          = match transport_answer env call with
            | Resolved sent => Resolved (Some sent)
            | Rejected e => Rejected e
            end.
Proof.
  destruct c as [self row recipient ps text campaign | self m]; simpl.
  - destruct (normalisePhoneNumber env recipient (defaultCountry cfg))
      as [normalised|e0]; [| left; now split].
    destruct (SMS.smsClient self) as [client|]; [| left; now split].
    destruct (template env XSS_SMS_OPTION (Some text) ps) as [rendered|e1];
      [| left; now split].
    right. eexists. split; [reflexivity |]. now split.
  - destruct (rendered_mail env cfg m) as [mail|e0] eqn:Hmail;
      [| left; now split].
    right. eexists. split; [reflexivity |]. simpl.
    split; [exact (mail_reference env cfg m mail Hmail) | reflexivity].
Qed.

(** X3: [sendMessage] of either worker hands at most one call to its
    transport, and that call carries the id of the message's record.  When
    no call is made (invalid recipient, failed rendering, no SMS client) no
    provider id comes out; when one is made, the transport's answer to it is
    the outcome of the send: its id on success, its error on failure. *)
Theorem transport_is_asked_at_most_once (env : Environment) (cfg : Config)
    (c : SendCall) (w : World) :
  (outbox (snd (sendMessage env cfg c w)) = outbox w
   /\ transport_calls env cfg c = []
   /\ forall sent, transport_outcome env cfg c <> Resolved (Some sent))
  \/ exists call,
       outbox (snd (sendMessage env cfg c w)) = (outbox w ++ [call])%list
       /\ transport_calls env cfg c = [call]
       /\ call_reference call = toString (record_id c)
       /\ transport_outcome env cfg c
          = match transport_answer env call with
            | Resolved sent => Resolved (Some sent)
            | Rejected e => Rejected e
            end.
Proof.
  rewrite sendMessage_outbox.
  destruct (transport_call_shape env cfg c)
    as [[Hnone Hno] | (call & Hone & Href & Hanswer)].
  - left. rewrite Hnone, app_nil_r. now repeat split.
  - right. exists call. rewrite Hone. now repeat split.
Qed.

(** X4: a message can have left and still be marked ERROR.  If the
    transport accepted the message and the database refuses the SENDING
    update, the catch handler of either worker writes the database's
    refusal, cut to 255 characters, as the record's error: the call
    resolves, the transport call stays made, and the record is in status
    ERROR. *)
Theorem sent_message_can_be_marked_error (env : Environment) (cfg : Config)
    (c : SendCall) (w : World) (sent : string) (refusal : Error) :
  transport_outcome env cfg c = Resolved (Some sent) ->
  db_fault env (sending_update c (Some sent)) = Some refusal ->
  db_fault env (error_update c (substring0 255 (message refusal))) = None ->
  fst (sendMessage env cfg c w) = Resolved tt
  /\ (exists call,
        outbox (snd (sendMessage env cfg c w)) = (outbox w ++ [call])%list
        /\ transport_answer env call = Resolved sent)
  /\ Forall2 (fun r r' =>
                if Z.eqb (rec_id r) (record_id c)
                then rec_status r' = ERROR
                     /\ rec_error_code r'
                        = Some (substring0 255 (message refusal))
                else r' = r)
             (ops c (committed w))
             (ops c (committed (snd (sendMessage env cfg c w)))).
Proof.
  intros Hout Hrefused Hdb. split; [| split].
  - rewrite sendMessage_settles, Hout.
    rewrite (settle_success_refused env c _ refusal _ Hrefused).
    now rewrite (settle_failure_accepted env c refusal _ Hdb).
  - rewrite sendMessage_outbox.
    destruct (transport_call_shape env cfg c)
      as [[_ Hno] | (call & Hone & _ & Hanswer)];
      [now destruct (Hno sent) |].
    exists call. rewrite Hone. split; [reflexivity |].
    rewrite Hout in Hanswer.
    destruct (transport_answer env call); now inversion Hanswer.
  - rewrite sendMessage_settles, Hout.
    rewrite (settle_success_refused env c _ refusal _ Hrefused).
    rewrite (settle_failure_accepted env c refusal _ Hdb). simpl.
    eapply Forall2_weaken;
      [| apply (record_set_error c (clock w + 1)
                  (substring0 255 (message refusal)) (committed w))].
    intros r r'. cbv beta.
    destruct (Z.eqb (rec_id r) (record_id c)); [| easy].
    now intros (H1 & H2 & _).
Qed.

(** The gateway took message 1 as "SM1", the SENDING update hit a deadlock:
    the SMS is out and record 1 reads ERROR. *)
Lemma sent_message_can_be_marked_error_witness :
  transport_outcome Cases.envSendingRefused Sample.cfg Sample.validSms
  = Resolved (Some "SM1")
  /\ outbox (snd (sendMessage Cases.envSendingRefused Sample.cfg
                    Sample.validSms Sample.world))
     = [SmsSend (TwilioClient Sample.credentials) 1 "+6598765432"
                "Hello world" (Some 1)]
  /\ Forall2 (fun r r' =>
                if Z.eqb (rec_id r) 1
                then rec_status r' = ERROR
                     /\ rec_error_code r' = Some "deadlock detected"
                else r' = r)
             (sms_ops Sample.tables)
             (sms_ops (committed (snd (sendMessage Cases.envSendingRefused
                                         Sample.cfg Sample.validSms
                                         Sample.world)))).
Proof.
  destruct (sent_message_can_be_marked_error Cases.envSendingRefused
              Sample.cfg Sample.validSms Sample.world "SM1"
              (mkError "deadlock detected") eq_refl eq_refl eq_refl)
    as (_ & _ & Hrows).
  split; [reflexivity | split; [reflexivity | exact Hrows]].
Defined.

(** ** The stored error *)

Lemma substring0_exact (n : nat) (s : string) :
  (n <= String.length s)%nat -> String.length (substring0 n s) = n.
Proof.
  unfold substring0. revert s.
  induction n as [|n IH]; intros [|c s]; simpl; intros H;
    try reflexivity; try lia.
  f_equal. apply IH. lia.
Qed.

(** X5: the error stored with a failed message is the failure's message as
    it is when that has at most 255 characters, and exactly its first 255
    characters when it is longer. *)
Theorem stored_error_is_cut_at_255 (env : Environment) (cfg : Config)
    (c : SendCall) (w : World) (e : Error) :
  transport_outcome env cfg c = Rejected e ->
  db_fault env (error_update c (substring0 255 (message e))) = None ->
  exists stored,
    Forall2 (fun r r' =>
               if Z.eqb (rec_id r) (record_id c)
               then rec_error_code r' = Some stored
               else r' = r)
            (ops c (committed w))
            (ops c (committed (snd (sendMessage env cfg c w))))
    /\ ((String.length (message e) <= 255)%nat -> stored = message e)
    /\ ((255 < String.length (message e))%nat ->
        String.length stored = 255%nat
        /\ exists cut, message e = (stored ++ cut)%string
                       /\ cut <> EmptyString).
Proof.
  intros Hout Hdb. exists (substring0 255 (message e)).
  split; [| split].
  - rewrite sendMessage_settles, Hout.
    rewrite settle_failure_accepted by exact Hdb. simpl.
    eapply Forall2_weaken; [| apply record_set_error].
    intros r r'. cbv beta.
    destruct (Z.eqb (rec_id r) (record_id c)); [| easy].
    now intros (_ & H & _).
  - apply substring0_short.
  - intros Hlong.
    assert (Hlen : String.length (substring0 255 (message e)) = 255%nat)
      by (apply substring0_exact; lia).
    split; [exact Hlen |].
    destruct (substring0_prefix 255 (message e)) as [cut Hcut].
    exists cut. split; [exact Hcut |].
    intros ->. rewrite Hcut, length_app, Hlen in Hlong. simpl in Hlong. lia.
Qed.

(** A gateway error of 300 characters is stored as its first 255. *)
Lemma stored_error_is_cut_at_255_witness :
  transport_outcome Cases.envGatewayVerbose Sample.cfg Sample.validSms
  = Rejected (mkError (Cases.replicate 300 "x"))
  /\ db_fault Cases.envGatewayVerbose
       (error_update Sample.validSms
          (substring0 255 (Cases.replicate 300 "x"))) = None
  /\ exists stored,
       Forall2 (fun r r' =>
                  if Z.eqb (rec_id r) 1
                  then rec_error_code r' = Some stored
                  else r' = r)
               (sms_ops Sample.tables)
               (sms_ops (committed (snd (sendMessage Cases.envGatewayVerbose
                                           Sample.cfg Sample.validSms
                                           Sample.world))))
       /\ String.length stored = 255%nat.
Proof.
  destruct (stored_error_is_cut_at_255 Cases.envGatewayVerbose Sample.cfg
              Sample.validSms Sample.world
              (mkError (Cases.replicate 300 "x")) eq_refl eq_refl)
    as (stored & Hrows & _ & Hlong).
  split; [reflexivity | split; [reflexivity |]].
  exists stored. split; [exact Hrows |].
  apply Hlong. vm_compute. lia.
Defined.

(** ** The mail the email worker composes *)

Lemma append_empty (s : string) : (s ++ EmptyString)%string = s.
Proof. induction s as [|c s IH]; simpl; [reflexivity | now rewrite IH]. Qed.

Lemma append_assoc (a b c : string) :
  ((a ++ b) ++ c)%string = (a ++ (b ++ c))%string.
Proof. induction a as [|x a IH]; simpl; [reflexivity | now rewrite IH]. Qed.

Lemma occurs_append (x : ascii) (a b : string) :
  occurs x (a ++ b) = occurs x a || occurs x b.
Proof.
  induction a as [|c a IH]; simpl; [reflexivity |].
  now rewrite IH, orb_assoc.
Qed.

Lemma split_aux_nonempty (sep : ascii) (s cur : string) :
  split_aux sep s cur <> [].
Proof.
  revert cur. induction s as [|c s IH]; intros cur; simpl; [discriminate |].
  destruct (Ascii.eqb c sep); [discriminate | apply IH].
Qed.

(** Joining the pieces of [s.split(sep)] with [sep] gives [s] back, and no
    piece holds the separator. *)
Lemma split_aux_join (sep : ascii) (s cur : string) :
  occurs sep cur = false ->
  String.concat (String sep EmptyString) (split_aux sep s cur)
  = (cur ++ s)%string
  /\ Forall (fun piece => occurs sep piece = false) (split_aux sep s cur).
Proof.
  revert cur. induction s as [|c s IH]; intros cur Hcur; simpl.
  - split; [now rewrite append_empty | now constructor].
  - destruct (Ascii.eqb_spec c sep) as [->|Hne].
    + destruct (IH EmptyString eq_refl) as [Hjoin Hpieces].
      split; [| now constructor].
      destruct (split_aux sep s EmptyString) as [|piece pieces] eqn:Hs;
        [now destruct (split_aux_nonempty sep s EmptyString) |].
      change (String.concat (String sep EmptyString) (cur :: piece :: pieces))
        with (cur ++ String sep EmptyString
                ++ String.concat (String sep EmptyString) (piece :: pieces))%string.
      now rewrite Hjoin.
    + destruct (IH (cur ++ String c EmptyString)%string) as [Hjoin Hpieces].
      * rewrite occurs_append, Hcur. simpl.
        destruct (Ascii.eqb_spec sep c) as [->|_]; [now destruct Hne |].
        reflexivity.
      * split; [| exact Hpieces]. now rewrite Hjoin, append_assoc.
Qed.

Lemma rendered_mail_fields (env : Environment) (cfg : Config) (m : Message)
    (mail : MailToSend) :
  rendered_mail env cfg m = Resolved mail ->
  isEmail env (recipient m) = true
  /\ mail_recipients mail = [recipient m]
  /\ mail_messageId mail = toString (id m)
  /\ template env XSS_EMAIL_OPTION (subject m) (params m)
     = Resolved (mail_subject mail)
  /\ (exists link hydratedBody,
        Email.generateUnsubLink env cfg (campaignId m) (recipient m)
        = Resolved link
        /\ mail_unsubLink mail = url_toString env link
        /\ template env XSS_EMAIL_OPTION (Some (body m)) (params m)
           = Resolved hydratedBody
        /\ generateThemedHTMLEmail env
             (mkThemedEmailInput hydratedBody (mail_unsubLink mail)
                (agencyName m) (agencyLogoURI m) (showMasthead m)
                (contactPrefLink m))
           = Resolved (mail_body mail))
  /\ mail_from mail
     = (if truthy_opt (from m)
        then match from m with Some f => f | None => mailFrom cfg end
        else mailFrom cfg)
  /\ mail_replyTo mail = (if truthy_opt (replyTo m) then replyTo m else None)
  /\ mail_bcc mail
     = match param "bcc" (params m) with
       | Some bcc => if truthy bcc then Some (split "," bcc) else None
       | None => None
       end.
Proof.
  unfold rendered_mail.
  destruct (isEmail env (recipient m)); simpl; [| discriminate].
  destruct (template env XSS_EMAIL_OPTION (subject m) (params m))
    as [hydratedSubject|]; [| discriminate].
  destruct (template env XSS_EMAIL_OPTION (Some (body m)) (params m))
    as [hydratedBody|]; [| discriminate].
  destruct (Email.generateUnsubLink env cfg (campaignId m) (recipient m))
    as [link|]; [| discriminate].
  destruct (generateThemedHTMLEmail env _) as [html|] eqn:Hhtml;
    [| discriminate].
  intros [= <-]. simpl.
  split; [reflexivity | split; [reflexivity | split; [reflexivity |]]].
  split; [reflexivity | split; [| now repeat split]].
  now exists link, hydratedBody.
Qed.

(** X6: every mail [Email.sendMessage] hands to the mail service goes
    through the client built in the constructor, to the message's recipient
    alone, and only after that recipient passed the address check; it
    carries the record's id as its message id and the rendered subject; the
    unsubscribe link in its headers is the one rendered into its body.  Its
    sender is the message's own [from] when that is set and not empty, and
    the configured [mailFrom] when it is missing or empty; its reply-to is
    the message's [replyTo] when that is set and not empty, and absent
    otherwise; its bcc list is absent when [params.bcc] is missing or empty,
    and otherwise the comma-separated pieces of [params.bcc], which joined
    by commas give [params.bcc] back. *)
Theorem mail_is_composed_from_its_message (env : Environment) (cfg : Config)
    (self : Email.t) (m : Message) (w : World) (client : MailClient)
    (mail : MailToSend) :
  In (MailSend client mail) (outbox (snd (Email.sendMessage env cfg self m w))) ->
  In (MailSend client mail) (outbox w)
  \/ (client = Email.mailService self
      /\ isEmail env (recipient m) = true
      /\ mail_recipients mail = [recipient m]
      /\ mail_messageId mail = toString (id m)
      /\ template env XSS_EMAIL_OPTION (subject m) (params m)
         = Resolved (mail_subject mail)
      /\ (exists link hydratedBody,
            Email.generateUnsubLink env cfg (campaignId m) (recipient m)
            = Resolved link
            /\ mail_unsubLink mail = url_toString env link
            /\ template env XSS_EMAIL_OPTION (Some (body m)) (params m)
               = Resolved hydratedBody
            /\ generateThemedHTMLEmail env
                 (mkThemedEmailInput hydratedBody (mail_unsubLink mail)
                    (agencyName m) (agencyLogoURI m) (showMasthead m)
                    (contactPrefLink m))
               = Resolved (mail_body mail))
      /\ (forall sender,
            from m = Some sender -> sender <> EmptyString ->
            mail_from mail = sender)
      /\ (from m = None \/ from m = Some EmptyString ->
          mail_from mail = mailFrom cfg)
      /\ (forall address,
            replyTo m = Some address -> address <> EmptyString ->
            mail_replyTo mail = Some address)
      /\ (replyTo m = None \/ replyTo m = Some EmptyString ->
          mail_replyTo mail = None)
      /\ match mail_bcc mail with
         | None =>
             param "bcc" (params m) = None
             \/ param "bcc" (params m) = Some EmptyString
         | Some pieces =>
             exists bcc,
               param "bcc" (params m) = Some bcc
               /\ bcc <> EmptyString
               /\ String.concat "," pieces = bcc
               /\ Forall (fun piece => occurs "," piece = false) pieces
         end).
Proof.
  change (Email.sendMessage env cfg self m w)
    with (sendMessage env cfg (EmailCall self m) w).
  rewrite sendMessage_outbox. intros Hin.
  apply in_app_or in Hin. destruct Hin as [Hold|Hnew]; [now left | right].
  simpl in Hnew.
  destruct (rendered_mail env cfg m) as [mail'|e] eqn:Hmail;
    [| now destruct Hnew].
  destruct Hnew as [[= <- <-]|[]].
  destruct (rendered_mail_fields env cfg m mail' Hmail)
    as (Hvalid & Hto & Hid & Hsubject & Hlink & Hfrom & Hreply & Hbcc).
  assert (Hset : forall v : string, v <> EmptyString -> truthy v = true).
  { intros v Hv. unfold truthy.
    now destruct (String.eqb_spec v EmptyString). }
  split; [reflexivity | split; [exact Hvalid | split; [exact Hto |]]].
  split; [exact Hid | split; [exact Hsubject | split; [exact Hlink |]]].
  split; [| split; [| split; [| split]]].
  - intros sender Hsender Hne. rewrite Hfrom, Hsender. simpl.
    now rewrite (Hset sender Hne).
  - intros [Hnone | Hempty]; rewrite Hfrom; [now rewrite Hnone |].
    now rewrite Hempty.
  - intros address Haddress Hne. rewrite Hreply, Haddress. simpl.
    now rewrite (Hset address Hne).
  - intros [Hnone | Hempty]; rewrite Hreply; [now rewrite Hnone |].
    now rewrite Hempty.
  - rewrite Hbcc.
    destruct (param "bcc" (params m)) as [bcc|]; [| now left].
    unfold truthy.
    destruct (String.eqb_spec bcc EmptyString) as [->|Hne]; simpl;
      [now right |].
    exists bcc. split; [reflexivity | split; [exact Hne |]].
    unfold split. exact (split_aux_join "," bcc EmptyString eq_refl).
Qed.

(** The sample message with two bcc addresses, its own sender and a reply-to
    address. *)
Lemma mail_is_composed_from_its_message_witness :
  exists mail,
    outbox (snd (Email.sendMessage Sample.env Sample.cfg Sample.mailer
                   Cases.mailWithCopies Sample.world))
    = [MailSend (Email.mailService Sample.mailer) mail]
    /\ mail_recipients mail = ["user@agency.gov.sg"]
    /\ mail_messageId mail = "1"
    /\ mail_from mail = "sender@agency.gov.sg"
    /\ mail_replyTo mail = Some "reply@agency.gov.sg"
    /\ mail_bcc mail = Some ["a@x.sg"; "b@y.sg"].
Proof.
  eexists. split; [reflexivity |].
  destruct (mail_is_composed_from_its_message Sample.env Sample.cfg
              Sample.mailer Cases.mailWithCopies Sample.world
              _ _ (or_introl eq_refl))
    as [[]|(_ & _ & Hto & Hid & _ & _ & Hfrom & _ & Hreply & _)].
  split; [exact Hto | split; [exact Hid |]].
  split; [apply Hfrom; [reflexivity | discriminate] |].
  split; [apply Hreply; [reflexivity | discriminate] | reflexivity].
Defined.

(** ** The unsubscribe link *)

Lemma digits_have_no_dot (d : uint) :
  occurs "." (NilEmpty.string_of_uint d) = false.
Proof. induction d; simpl; auto. Qed.

Lemma toString_has_no_dot (n : Z) : occurs "." (toString n) = false.
Proof.
  unfold toString, NilZero.string_of_int, NilZero.string_of_uint.
  destruct (Z.to_int n) as [d|d]; destruct d; simpl;
    auto using digits_have_no_dot.
Qed.

Lemma to_int_is_a_numeral (n : Z) :
  Z.to_int n <> Pos Nil /\ Z.to_int n <> Neg Nil.
Proof.
  destruct n as [|p|p]; simpl; split; try discriminate;
    intros [= H]; now apply (Unsigned.to_uint_nonnil p).
Qed.

Lemma toString_reads_back (n : Z) :
  NilZero.int_of_string (toString n) = Some (Z.to_int n).
Proof.
  unfold toString. destruct (to_int_is_a_numeral n). now apply NilZero.isi.
Qed.

Lemma toString_injective (a b : Z) : toString a = toString b -> a = b.
Proof.
  intros H. apply DecimalZ.to_int_inj.
  assert (Hboth : Some (Z.to_int a) = Some (Z.to_int b))
    by now rewrite <- !toString_reads_back, H.
  now injection Hboth.
Qed.

Lemma interpolate_has_no_dot (c : option Z) :
  occurs "." (Email.interpolate c) = false.
Proof. destruct c; [apply toString_has_no_dot | reflexivity]. Qed.

Lemma interpolate_injective (a b : option Z) :
  Email.interpolate a = Email.interpolate b -> a = b.
Proof.
  destruct a as [a|], b as [b|]; simpl; intros H.
  - f_equal. now apply toString_injective.
  - assert (Hread := toString_reads_back a). rewrite H in Hread. discriminate.
  - assert (Hread := toString_reads_back b). rewrite <- H in Hread.
    discriminate.
  - reflexivity.
Qed.

Lemma cut_at_first (x : ascii) (a1 a2 r1 r2 : string) :
  occurs x a1 = false -> occurs x a2 = false ->
  (a1 ++ String x r1)%string = (a2 ++ String x r2)%string ->
  a1 = a2 /\ r1 = r2.
Proof.
  revert a2. induction a1 as [|c a1 IH]; intros [|d a2]; simpl.
  - intros _ _ [= ->]. now split.
  - intros _ H [= <- _]. now rewrite Ascii.eqb_refl in H.
  - intros H _ [= -> _]. now rewrite Ascii.eqb_refl in H.
  - intros H1 H2 [= -> Hrest].
    apply orb_false_elim in H1, H2.
    destruct (IH a2 (proj2 H1) (proj2 H2) Hrest) as [-> ->]. now split.
Qed.

(** X7: the text [calculateHash] signs, [`${campaignId}.${recipient}`],
    determines both the campaign id and the recipient: two unsubscribe
    hashes are computed over the same text only for the same campaign and
    the same recipient, dots in the recipient notwithstanding. *)
Theorem hashed_text_is_unambiguous :
  (forall (env : Environment) (cfg : Config) (c : option Z) (r : string),
      Email.calculateHash env cfg c r
      = createHmac env
          (unsubscribeHmac_algo cfg (unsubscribeHmac_version cfg))
          (unsubscribeHmac_key cfg (unsubscribeHmac_version cfg))
          (hashed_text c r))
  /\ forall (c1 c2 : option Z) (r1 r2 : string),
       hashed_text c1 r1 = hashed_text c2 r2 -> c1 = c2 /\ r1 = r2.
Proof.
  split; [reflexivity |].
  intros c1 c2 r1 r2 H. unfold hashed_text in H. simpl in H.
  destruct (cut_at_first "." _ _ r1 r2 (interpolate_has_no_dot c1)
              (interpolate_has_no_dot c2) H) as [Hc Hr].
  split; [now apply interpolate_injective | exact Hr].
Qed.

(** Campaign 1 with recipient "2.x@y.sg" and campaign 12 with recipient
    "x@y.sg" are signed over different texts. *)
Lemma hashed_text_is_unambiguous_witness :
  hashed_text (Some 1) "2.x@y.sg" = "1.2.x@y.sg"
  /\ hashed_text (Some 12) "x@y.sg" = "12.x@y.sg"
  /\ (hashed_text (Some 1) "2.x@y.sg" = hashed_text (Some 1) "2.x@y.sg" ->
      Some 1 = Some 1 /\ "2.x@y.sg" = "2.x@y.sg").
Proof.
  split; [reflexivity | split; [reflexivity |]].
  exact (proj2 hashed_text_is_unambiguous (Some 1) (Some 1) "2.x@y.sg"
           "2.x@y.sg").
Defined.

(** X8: [generateUnsubLink] goes through three steps that can throw, in this
    order: the HMAC of [calculateHash], [new URL] of [/unsubscribe/<version>]
    on the configured [unsubscribeUrl], and [toString] on the campaign id.
    It fails exactly when one of them does, with the error of the first that
    fails (for a missing campaign id: once the other two went through).  The
    link it gives keeps the address and the query of that URL and appends,
    in this order, [c] (the campaign id in decimal), [r] (the recipient) and
    [h], the HMAC, under the algorithm and key of the configured version, of
    exactly the [c] and [r] it carries, joined by a dot. *)
Theorem unsubscribe_link_signs_what_it_carries (env : Environment)
    (cfg : Config) (campaign : option Z) (recipient : string) :
  match Email.generateUnsubLink env cfg campaign recipient with
  | Resolved link =>
      exists base c h,
        createHmac env
          (unsubscribeHmac_algo cfg (unsubscribeHmac_version cfg))
          (unsubscribeHmac_key cfg (unsubscribeHmac_version cfg))
          (toString c ++ "." ++ recipient) = Resolved h
        /\ newURL env ("/unsubscribe/" ++ unsubscribeHmac_version cfg)
                  (unsubscribeUrl cfg) = Resolved base
        /\ campaign = Some c
        /\ url_href link = url_href base
        /\ url_searchParams link
           = (url_searchParams base
                ++ [("c", toString c); ("r", recipient); ("h", h)])%list
  | Rejected e =>
      Email.calculateHash env cfg campaign recipient = Rejected e
      \/ (exists h,
            Email.calculateHash env cfg campaign recipient = Resolved h
            /\ newURL env ("/unsubscribe/" ++ unsubscribeHmac_version cfg)
                      (unsubscribeUrl cfg) = Rejected e)
      \/ (exists h base,
            Email.calculateHash env cfg campaign recipient = Resolved h
            /\ newURL env ("/unsubscribe/" ++ unsubscribeHmac_version cfg)
                      (unsubscribeUrl cfg) = Resolved base
            /\ campaign = None)
  end.
Proof.
  unfold Email.generateUnsubLink.
  destruct (Email.calculateHash env cfg campaign recipient) as [h|e] eqn:Hh;
    [| now left].
  destruct (newURL env _ (unsubscribeUrl cfg)) as [base|e] eqn:Hbase;
    [| right; left; now exists h].
  destruct campaign as [c|]; [| right; right; now exists h, base].
  exists base, c, h. simpl.
  split; [exact Hh | split; [reflexivity | split; [reflexivity |]]].
  split; [reflexivity |]. now rewrite <- !app_assoc.
Qed.

(** A deployment whose HMAC version names a digest the platform does not
    have: the valid message of the sample campaign is not mailed and its
    record reads ERROR with the digest's error. *)
Example unknown_digest_stops_the_mail :
  Email.generateUnsubLink Sample.env Cases.cfgUnknownDigest (Some 1)
    "user@agency.gov.sg"
  = Rejected (mkError "Invalid digest: sha-unknown")
  /\ outbox (snd (sendMessage Sample.env Cases.cfgUnknownDigest
                    Sample.validEmail Sample.world)) = []
  /\ map (fun r => (rec_status r, rec_error_code r))
         (email_ops (committed (snd (sendMessage Sample.env
                                       Cases.cfgUnknownDigest
                                       Sample.validEmail Sample.world))))
     = [(ERROR, Some "Invalid digest: sha-unknown"); (UNSENT, None)].
Proof. repeat split; reflexivity. Qed.

(** X9: a message without a campaign id, or a deployment whose
    [unsubscribeUrl] cannot be made into a URL, is never mailed:
    [Email.sendMessage] hands nothing to the mail service and validation or
    rendering has failed; on a database that accepts the ERROR update the
    call resolves with the record in status ERROR. *)
Theorem no_unsubscribe_link_no_mail (env : Environment) (cfg : Config)
    (self : Email.t) (m : Message) (w : World) :
  campaignId m = None
  \/ (exists e,
        newURL env ("/unsubscribe/" ++ unsubscribeHmac_version cfg)
               (unsubscribeUrl cfg) = Rejected e) ->
  outbox (snd (Email.sendMessage env cfg self m w)) = outbox w
  /\ exists e,
       transport_outcome env cfg (EmailCall self m) = Rejected e
       /\ (db_fault env (UpdateEmailOpsError (id m)
                           (substring0 255 (message e))) = None ->
           fst (Email.sendMessage env cfg self m w) = Resolved tt
           /\ Forall2 (fun r r' =>
                         if Z.eqb (rec_id r) (id m)
                         then rec_status r' = ERROR
                              /\ rec_error_code r'
                                 = Some (substring0 255 (message e))
                         else r' = r)
                      (email_ops (committed w))
                      (email_ops (committed (snd (Email.sendMessage env cfg
                                                    self m w))))).
Proof.
  intros Hnolink.
  assert (Hlink : exists e,
             Email.generateUnsubLink env cfg (campaignId m) (recipient m)
             = Rejected e).
  { unfold Email.generateUnsubLink.
    destruct (Email.calculateHash env cfg (campaignId m) (recipient m));
      [| now eexists].
    destruct Hnolink as [-> | [e ->]]; [| now exists e].
    destruct (newURL env _ (unsubscribeUrl cfg)); now eexists. }
  destruct Hlink as [elink Hlink].
  assert (Hmail : exists e, rendered_mail env cfg m = Rejected e).
  { unfold rendered_mail. rewrite Hlink.
    destruct (isEmail env (recipient m)); simpl; [| now eexists].
    destruct (template env XSS_EMAIL_OPTION (subject m) (params m));
      [| now eexists].
    destruct (template env XSS_EMAIL_OPTION (Some (body m)) (params m));
      now eexists. }
  destruct Hmail as [e Hmail].
  change (Email.sendMessage env cfg self m w)
    with (sendMessage env cfg (EmailCall self m) w).
  split.
  - rewrite sendMessage_outbox. simpl. rewrite Hmail. apply app_nil_r.
  - exists e. split; [simpl; now rewrite Hmail |].
    intros Hdb. rewrite sendMessage_settles. simpl transport_outcome.
    simpl transport_calls. rewrite Hmail, handed_over_nil.
    rewrite (settle_failure_accepted env (EmailCall self m) e w Hdb). simpl.
    split; [reflexivity |].
    eapply Forall2_weaken;
      [| apply (record_set_error (EmailCall self m) (clock w)
                  (substring0 255 (message e)) (committed w))].
    intros r r'. cbv beta. simpl.
    destruct (Z.eqb (rec_id r) (id m)); [| easy].
    now intros (H1 & H2 & _).
Qed.

(** The sample message that lost its campaign id. *)
Lemma no_unsubscribe_link_no_mail_witness :
  campaignId Cases.mailWithoutCampaign = None
  /\ outbox (snd (Email.sendMessage Sample.env Sample.cfg Sample.mailer
                    Cases.mailWithoutCampaign Sample.world)) = []
  /\ map rec_status
         (email_ops (committed (snd (Email.sendMessage Sample.env Sample.cfg
                                       Sample.mailer Cases.mailWithoutCampaign
                                       Sample.world))))
     = [ERROR; UNSENT].
Proof.
  destruct (no_unsubscribe_link_no_mail Sample.env Sample.cfg Sample.mailer
              Cases.mailWithoutCampaign Sample.world (or_introl eq_refl))
    as [Houtbox _].
  split; [reflexivity | split; [exact Houtbox | reflexivity]].
Defined.

(** ** A batch, with and without enrichment *)

Lemma getMessages_fetch_refused (env : Environment) (cfg : Config)
    (jobId rate : Z) (w : World) (e : Error) :
  (exec env (clock w) (SelectGetMessagesToSendSms jobId rate) (committed w)
   = Rejected e ->
   forall self : SMS.t,
     SMS.getMessages env cfg self jobId rate w
     = (Rejected e,
        mkWorld (committed w) (inTransaction w) (clock w + 1) (outbox w)
                (logs w)))
  /\ (exec env (clock w) (SelectGetMessagesToSendEmailWithAgency jobId rate)
           (committed w)
      = Rejected e ->
      forall self : Email.t,
        Email.getMessages env cfg self jobId rate w
        = (Rejected e,
           mkWorld (committed w) (inTransaction w) (clock w + 1) (outbox w)
                   (logs w))).
Proof.
  split; intros Hfetch self.
  - unfold SMS.getMessages, andThen, query. now rewrite Hfetch.
  - unfold Email.getMessages, andThen, query. now rewrite Hfetch.
Qed.

(** X10: enrichment is attempted only when it is enabled and the fetched
    batch is not empty.  With [phonebookContactPref.enabled] off, with an
    empty batch, or with a failing fetch, [getMessages] of either worker is
    exactly its fetch statement: no owner lookup is issued, nothing is
    logged, an empty batch resolves to the empty list and a failing fetch
    rejects with the database's error. *)
Theorem getMessages_without_enrichment (env : Environment) (cfg : Config)
    (jobId rate : Z) (w : World) :
  (forall self : SMS.t,
      phonebookContactPref_enabled cfg = false
      \/ match exec env (clock w) (SelectGetMessagesToSendSms jobId rate)
                 (committed w) with
         | Resolved (q, _) => smsRows q = []
         | Rejected _ => True
         end ->
      SMS.getMessages env cfg self jobId rate w
      = (dbResults <- query env (SelectGetMessagesToSendSms jobId rate) None ;;
         resolve (map get_messages_to_send_sms_col (smsRows dbResults))) w)
  /\ (forall self : Email.t,
        phonebookContactPref_enabled cfg = false
        \/ match exec env (clock w)
                   (SelectGetMessagesToSendEmailWithAgency jobId rate)
                   (committed w) with
           | Resolved (q, _) => emailRows q = []
           | Rejected _ => True
           end ->
        Email.getMessages env cfg self jobId rate w
        = (dbResults <-
             query env (SelectGetMessagesToSendEmailWithAgency jobId rate)
                   None ;;
           resolve (unenriched cfg (emailRows dbResults))) w).
Proof.
  split; intros self Hskip.
  - destruct (exec env (clock w) (SelectGetMessagesToSendSms jobId rate)
                (committed w)) as [[q t']|e] eqn:Hfetch.
    + rewrite (sms_getMessages_run env cfg self jobId rate w q t' Hfetch).
      unfold andThen, query, resolve. rewrite Hfetch.
      destruct Hskip as [Hoff | Hempty].
      * rewrite Hoff. now destruct (map _ (smsRows q)).
      * now rewrite Hempty.
    + rewrite (proj1 (getMessages_fetch_refused env cfg jobId rate w e)
                 Hfetch self).
      unfold andThen, query. now rewrite Hfetch.
  - destruct (exec env (clock w)
                (SelectGetMessagesToSendEmailWithAgency jobId rate)
                (committed w)) as [[q t']|e] eqn:Hfetch.
    + rewrite (email_getMessages_run env cfg self jobId rate w q t' Hfetch).
      unfold andThen, query, resolve. rewrite Hfetch.
      destruct Hskip as [Hoff | Hempty].
      * rewrite Hoff. now destruct (emailRows q).
      * now rewrite Hempty.
    + rewrite (proj2 (getMessages_fetch_refused env cfg jobId rate w e)
                 Hfetch self).
      unfold andThen, query. now rewrite Hfetch.
Qed.

(** Nothing is ready: with enrichment enabled the SMS worker still issues
    the fetch alone.  And with the fetch procedure missing the email worker
    rejects with the database's error. *)
Lemma getMessages_without_enrichment_witness :
  phonebookContactPref_enabled Sample.cfg = true
  /\ SMS.getMessages Sample.env Sample.cfg Sample.sms 1 10 Cases.idleWorld
     = (Resolved [], mkWorld Cases.idleTables None 101 [] [])
  /\ Email.getMessages Cases.envFetchDown Sample.cfg Sample.mailer 1 10
       Sample.world
     = (Rejected (mkError "function does not exist"),
        mkWorld Sample.tables None 101 [] []).
Proof.
  destruct (getMessages_without_enrichment Sample.env Sample.cfg 1 10
              Cases.idleWorld) as [Hsms _].
  destruct (getMessages_without_enrichment Cases.envFetchDown Sample.cfg 1 10
              Sample.world) as [_ Hemail].
  split; [reflexivity | split].
  - rewrite (Hsms Sample.sms (or_intror eq_refl)). reflexivity.
  - rewrite (Hemail Sample.mailer (or_intror I)). reflexivity.
Defined.

(** X11: with enrichment enabled and a non-empty batch, the outcome of the
    enrichment (owner lookup for the campaign of the first message, then
    the preference helper with that owner's email) decides what
    [getMessages] returns and logs: on success the helper's messages and no
    log line; on failure the fetched batch (for email, with its masthead
    flags) and exactly one error line, "Unable to fetch contact
    preferences", carrying the failure and the worker id. *)
Theorem enrichment_decides_batch_and_log (env : Environment) (cfg : Config)
    (jobId rate : Z) (w : World) (q : QueryResult) (t' : Tables) :
  phonebookContactPref_enabled cfg = true ->
  (forall (self : SMS.t) (first : SmsMessage) (rest : list SmsMessage),
      exec env (clock w) (SelectGetMessagesToSendSms jobId rate) (committed w)
      = Resolved (q, t') ->
      map get_messages_to_send_sms_col (smsRows q) = first :: rest ->
      match enrichment_outcome
              (owner_lookup env (clock w + 1) (Some (sms_campaignId first)) t')
              (getMessagesWithContactPrefLinks env (first :: rest)
                 (sms_campaignId first)) with
      | Resolved enriched =>
          fst (SMS.getMessages env cfg self jobId rate w) = Resolved enriched
          /\ logs (snd (SMS.getMessages env cfg self jobId rate w)) = logs w
      | Rejected e =>
          fst (SMS.getMessages env cfg self jobId rate w)
          = Resolved (first :: rest)
          /\ logs (snd (SMS.getMessages env cfg self jobId rate w))
             = (logs w ++ [enrichment_log (SMS.workerId self) e])%list
      end)
  /\ (forall (self : Email.t) (first : EmailResultRow)
             (rest : list EmailResultRow),
        exec env (clock w) (SelectGetMessagesToSendEmailWithAgency jobId rate)
             (committed w)
        = Resolved (q, t') ->
        emailRows q = first :: rest ->
        match enrichment_outcome
                (owner_lookup env (clock w + 1)
                   (campaignId (row_message first)) t')
                (Email.getContactPrefLinksForEmail env cfg (first :: rest)
                   (campaignId (row_message first))) with
        | Resolved enriched =>
            fst (Email.getMessages env cfg self jobId rate w)
            = Resolved enriched
            /\ logs (snd (Email.getMessages env cfg self jobId rate w))
               = logs w
        | Rejected e =>
            fst (Email.getMessages env cfg self jobId rate w)
            = Resolved (unenriched cfg (first :: rest))
            /\ logs (snd (Email.getMessages env cfg self jobId rate w))
               = (logs w ++ [enrichment_log (Email.workerId self) e])%list
        end).
Proof.
  intros Hon. split.
  - intros self first rest Hfetch Hrows.
    rewrite (sms_getMessages_run env cfg self jobId rate w q t' Hfetch).
    rewrite Hrows, Hon.
    now destruct (enrichment_outcome _ _).
  - intros self first rest Hfetch Hrows.
    rewrite (email_getMessages_run env cfg self jobId rate w q t' Hfetch).
    rewrite Hrows, Hon.
    now destruct (enrichment_outcome _ _).
Qed.

(** The campaign's owner is not among the users: the SMS batch comes back
    as fetched and the failed lookup is logged. *)
Lemma enrichment_decides_batch_and_log_witness :
  phonebookContactPref_enabled Sample.cfg = true
  /\ owner_lookup Sample.env 101 (Some 1) Cases.orphanTables
     = Rejected (mkError
         "Unable to fetch user email from campaign for phonebook contact preference api")
  /\ fst (SMS.getMessages Sample.env Sample.cfg Sample.sms 1 10
            Cases.orphanWorld)
     = Resolved [mkSmsMessage 1 "98765432" [] "Hello world" 1;
                 mkSmsMessage 2 "not-a-number" [] "Hello world" 1]
  /\ logs (snd (SMS.getMessages Sample.env Sample.cfg Sample.sms 1 10
                  Cases.orphanWorld))
     = [LogError "Unable to fetch contact preferences"
          (mkError
             "Unable to fetch user email from campaign for phonebook contact preference api")
          "worker-1"].
Proof.
  edestruct (enrichment_decides_batch_and_log Sample.env Sample.cfg 1 10
               Cases.orphanWorld) as [Hsms _]; [reflexivity |].
  split; [reflexivity | split; [reflexivity |]].
  exact (Hsms Sample.sms _ _ eq_refl eq_refl).
Defined.

(** X12: the owner lookup and the enrichment are read-only.  Once the fetch
    went through, the committed tables [getMessages] of either worker
    leaves are the ones the fetch procedure left, whether enrichment is
    off, succeeds or fails; nothing is handed to a transport and an open
    transaction is not touched. *)
Theorem getMessages_only_fetches (env : Environment) (cfg : Config)
    (jobId rate : Z) (w : World) (q : QueryResult) (t' : Tables) :
  (exec env (clock w) (SelectGetMessagesToSendSms jobId rate) (committed w)
   = Resolved (q, t') ->
   forall self : SMS.t,
     committed (snd (SMS.getMessages env cfg self jobId rate w)) = t'
     /\ outbox (snd (SMS.getMessages env cfg self jobId rate w)) = outbox w
     /\ inTransaction (snd (SMS.getMessages env cfg self jobId rate w))
        = inTransaction w)
  /\ (exec env (clock w) (SelectGetMessagesToSendEmailWithAgency jobId rate)
           (committed w)
      = Resolved (q, t') ->
      forall self : Email.t,
        committed (snd (Email.getMessages env cfg self jobId rate w)) = t'
        /\ outbox (snd (Email.getMessages env cfg self jobId rate w))
           = outbox w
        /\ inTransaction (snd (Email.getMessages env cfg self jobId rate w))
           = inTransaction w).
Proof.
  split; intros Hfetch self.
  - rewrite (sms_getMessages_run env cfg self jobId rate w q t' Hfetch).
    destruct (map _ (smsRows q)); [now repeat split |].
    destruct (phonebookContactPref_enabled cfg); [| now repeat split].
    now destruct (enrichment_outcome _ _).
  - rewrite (email_getMessages_run env cfg self jobId rate w q t' Hfetch).
    destruct (emailRows q); [now repeat split |].
    destruct (phonebookContactPref_enabled cfg); [| now repeat split].
    now destruct (enrichment_outcome _ _).
Qed.

(** The sample batch through a preference service that is down. *)
Lemma getMessages_only_fetches_witness :
  committed (snd (Email.getMessages Sample.envServiceDown Sample.cfg
                    Sample.mailer 1 10 Sample.world)) = Sample.tables
  /\ outbox (snd (Email.getMessages Sample.envServiceDown Sample.cfg
                    Sample.mailer 1 10 Sample.world)) = [].
Proof.
  edestruct (getMessages_only_fetches Sample.envServiceDown Sample.cfg 1 10
               Sample.world) as [_ Hemail].
  edestruct (Hemail eq_refl Sample.mailer) as (Htables & Houtbox & _).
  split; [exact Htables | exact Houtbox].
Defined.

(** ** The owner lookup *)

Lemma filter_by_unique_key {A : Type} (key : A -> Z) (l : list A) (x : A) :
  NoDup (map key l) -> In x l ->
  filter (fun y => Z.eqb (key y) (key x)) l = [x].
Proof.
  induction l as [|y l IH]; simpl; intros Hnodup Hin; [now destruct Hin |].
  inversion Hnodup as [|k ks Hfresh Hrest]; subst.
  destruct Hin as [-> | Hin].
  - rewrite Z.eqb_refl. f_equal.
    clear IH Hnodup Hrest. induction l as [|z l IHl]; simpl; [reflexivity |].
    destruct (Z.eqb_spec (key z) (key x)) as [Heq|_].
    + destruct Hfresh. left. exact Heq.
    + apply IHl. intros Hin. apply Hfresh. now right.
  - destruct (Z.eqb_spec (key y) (key x)) as [Heq|_].
    + destruct Hfresh. rewrite Heq. now apply in_map.
    + now apply IH.
Qed.

Lemma filter_by_unknown_key {A : Type} (key : A -> Z) (l : list A) (k : Z) :
  ~ In k (map key l) -> filter (fun y => Z.eqb (key y) k) l = [].
Proof.
  induction l as [|y l IH]; simpl; intros Hfresh; [reflexivity |].
  destruct (Z.eqb_spec (key y) k) as [Heq|_].
  - destruct Hfresh. now left.
  - apply IH. intros Hin. apply Hfresh. now right.
Qed.

(** X13: the owner lookup of [getMessages] finds the owner of the campaign.
    With campaign and user ids unique, a campaign row (c, u) and a user row
    (u, e), and the statement not refused, the lookup for campaign c comes
    to e; for a campaign that has no row it comes to the error "Unable to
    fetch user email from campaign for phonebook contact preference api".
    For a missing campaign id the statement goes out with an undefined
    replacement: when the query layer refuses it, as sequelize does, the
    lookup fails with that refusal and not with the error above. *)
Theorem owner_lookup_finds_the_owner (env : Environment) (now : Z)
    (t : Tables) (c : Z) :
  db_fault env (SelectCampaignOwnerEmail (Some c)) = None ->
  (forall u e,
      NoDup (map campaign_id (campaigns t)) ->
      NoDup (map user_id (users t)) ->
      In (mkCampaign c u) (campaigns t) ->
      In (mkUser u e) (users t) ->
      owner_lookup env now (Some c) t = Resolved e)
  /\ (~ In c (map campaign_id (campaigns t)) ->
      owner_lookup env now (Some c) t
      = Rejected (mkError
          "Unable to fetch user email from campaign for phonebook contact preference api"))
  /\ (forall refusal,
        db_fault env (SelectCampaignOwnerEmail None) = Some refusal ->
        owner_lookup env now None t = Rejected refusal).
Proof.
  intros Hdb. unfold owner_lookup, exec, select_owner_email.
  split; [| split].
  - intros u e Hcampaigns Husers Hc Hu. rewrite Hdb.
    change (is_campaign (Some c))
      with (fun y => Z.eqb (campaign_id y) (campaign_id (mkCampaign c u))).
    rewrite (filter_by_unique_key campaign_id _ _ Hcampaigns Hc).
    change (fun u0 => Z.eqb (user_id u0) (campaign_user_id (mkCampaign c u)))
      with (fun y => Z.eqb (user_id y) (user_id (mkUser u e))).
    now rewrite (filter_by_unique_key user_id _ _ Husers Hu).
  - intros Hunknown. rewrite Hdb.
    change (is_campaign (Some c)) with (fun y => Z.eqb (campaign_id y) c).
    now rewrite (filter_by_unknown_key campaign_id _ _ Hunknown).
  - intros refusal Hrefused. now rewrite Hrefused.
Qed.

(** Campaign 1 of the sample deployment belongs to user 7; a lookup without
    a campaign id is turned down by the query layer. *)
Lemma owner_lookup_finds_the_owner_witness :
  db_fault Sample.env (SelectCampaignOwnerEmail (Some 1)) = None
  /\ In (mkCampaign 1 7) (campaigns Sample.tables)
  /\ In (mkUser 7 "owner@agency.gov.sg") (users Sample.tables)
  /\ owner_lookup Sample.env 100 (Some 1) Sample.tables
     = Resolved "owner@agency.gov.sg"
  /\ owner_lookup Sample.env 100 None Sample.tables
     = Rejected (Sample.noValue ":campaignId").
Proof.
  destruct (owner_lookup_finds_the_owner Sample.env 100 Sample.tables 1
              eq_refl) as (Hfound & _ & Hmissing).
  split; [reflexivity | split; [now left | split; [now left | split]]].
  - apply (Hfound 7 "owner@agency.gov.sg").
    + repeat constructor. intros [].
    + repeat constructor. intros [].
    + now left.
    + now left.
  - exact (Hmissing (Sample.noValue ":campaignId") eq_refl).
Defined.

(** ** Enqueueing, beyond the tables *)

Lemma enqueue_effects (env : Environment) (first second : Statement)
    (entry : LogEntry) (w : World) :
  logs (snd ((transaction (fun transaction =>
                query env first (Some transaction) ;;;
                query env second (Some transaction) ;;;
                resolve tt) ;;;
              logger entry) w))
  = (if isResolved
          (fst ((transaction (fun transaction =>
                   query env first (Some transaction) ;;;
                   query env second (Some transaction) ;;;
                   resolve tt) ;;;
                 logger entry) w))
     then (logs w ++ [entry])%list
     else logs w)
  /\ outbox (snd ((transaction (fun transaction =>
                     query env first (Some transaction) ;;;
                     query env second (Some transaction) ;;;
                     resolve tt) ;;;
                   logger entry) w))
     = outbox w
  /\ forall e,
       exec env (clock w) first (committed w) = Rejected e ->
       (transaction (fun transaction =>
          query env first (Some transaction) ;;;
          query env second (Some transaction) ;;;
          resolve tt) ;;;
        logger entry) w
       = (Rejected e,
          mkWorld (committed w) None (clock w + 1) (outbox w) (logs w)).
Proof.
  unfold transaction, andThen, query, resolve, logger. simpl.
  destruct (exec env (clock w) first (committed w)) as [[q1 t1]|e1] eqn:H1;
    simpl.
  - destruct (exec env (clock w + 1) second t1) as [[q2 t2]|e2]; simpl;
      now repeat split.
  - repeat split. now intros e [= ->].
Qed.

(** X14: [enqueueMessages] of either worker writes its log line ("Enqueued
    sms messages" / "Enqueued email messages", with worker id and job id)
    exactly when the transaction committed and nothing when it rejects; it
    hands nothing to a transport; and when the enqueue statement fails the
    statistics statement is not run: the call rejects with the first error
    after that one statement. *)
Theorem enqueueMessages_logs_after_commit (env : Environment)
    (jobId campaignId : Z) (w : World) :
  (forall self : SMS.t,
      logs (snd (SMS.enqueueMessages env self jobId campaignId w))
      = (if isResolved (fst (SMS.enqueueMessages env self jobId campaignId w))
         then (logs w
                 ++ [LogInfo "Enqueued sms messages" (SMS.workerId self) jobId
                             "enqueueMessages"])%list
         else logs w)
      /\ outbox (snd (SMS.enqueueMessages env self jobId campaignId w))
         = outbox w
      /\ forall e,
           exec env (clock w) (SelectEnqueueMessagesSms jobId) (committed w)
           = Rejected e ->
           SMS.enqueueMessages env self jobId campaignId w
           = (Rejected e,
              mkWorld (committed w) None (clock w + 1) (outbox w) (logs w)))
  /\ (forall self : Email.t,
        logs (snd (Email.enqueueMessages env self jobId campaignId w))
        = (if isResolved
                (fst (Email.enqueueMessages env self jobId campaignId w))
           then (logs w
                   ++ [LogInfo "Enqueued email messages" (Email.workerId self)
                               jobId "enqueueMessages"])%list
           else logs w)
        /\ outbox (snd (Email.enqueueMessages env self jobId campaignId w))
           = outbox w
        /\ forall e,
             exec env (clock w) (SelectEnqueueMessagesEmail jobId)
                  (committed w)
             = Rejected e ->
             Email.enqueueMessages env self jobId campaignId w
             = (Rejected e,
                mkWorld (committed w) None (clock w + 1) (outbox w) (logs w))).
Proof. split; intros self; apply enqueue_effects. Qed.

(** The database is down: the enqueue statement fails, nothing is logged
    and one statement was issued. *)
Lemma enqueueMessages_logs_after_commit_witness :
  exec Sample.envDatabaseDown 100 (SelectEnqueueMessagesSms 5) Sample.tables
  = Rejected (mkError "Connection terminated unexpectedly")
  /\ SMS.enqueueMessages Sample.envDatabaseDown Sample.sms 5 1 Sample.world
     = (Rejected (mkError "Connection terminated unexpectedly"),
        mkWorld Sample.tables None 101 [] []).
Proof.
  destruct (enqueueMessages_logs_after_commit Sample.envDatabaseDown 5 1
              Sample.world) as [Hsms _].
  destruct (Hsms Sample.sms) as (_ & _ & Hfirst).
  split; [reflexivity | exact (Hfirst _ eq_refl)].
Defined.

(** ** The sending session *)

(** X15: [destroySendingService] ends the SMS session.  Whatever client was
    in place, [sendMessage] afterwards hands nothing to a gateway, for every
    message and environment; tearing down after a setup leaves the worker as
    tearing down alone does; and a setup after a teardown gives the worker a
    setup from any other state gives, the earlier client playing no part. *)
Theorem teardown_ends_the_session (env : Environment) (cfg : Config)
    (self : SMS.t) :
  (forall (row : Z) (recipient : string) (ps : Params) (text : string)
          (campaign : option Z) (w : World),
      outbox (snd (SMS.sendMessage env cfg (SMS.destroySendingService self)
                     row recipient ps text campaign w))
      = outbox w)
  /\ (forall name : string,
        SMS.destroySendingService
          (snd (SMS.setSendingService env cfg self name))
        = SMS.destroySendingService self)
  /\ (forall (name : string) (credentials : TwilioCredentials),
        getTwilioCredentials env name = Resolved credentials ->
        SMS.setSendingService env cfg (SMS.destroySendingService self) name
        = SMS.setSendingService env cfg self name).
Proof.
  split; [| split].
  - intros row recipient ps text campaign w.
    change (SMS.sendMessage env cfg (SMS.destroySendingService self) row
              recipient ps text campaign w)
      with (sendMessage env cfg
              (SmsCall (SMS.destroySendingService self) row recipient ps text
                       campaign) w).
    rewrite sendMessage_outbox. simpl.
    destruct (normalisePhoneNumber env recipient (defaultCountry cfg));
      apply app_nil_r.
  - intros name. unfold SMS.setSendingService.
    now destruct (getTwilioCredentials env name).
  - intros name credentials Hc. unfold SMS.setSendingService.
    now rewrite Hc.
Qed.

(** The sample worker, set up, torn down and set up again. *)
Lemma teardown_ends_the_session_witness :
  getTwilioCredentials Sample.env "twilio" = Resolved Sample.credentials
  /\ outbox (snd (SMS.sendMessage Sample.env Sample.cfg
                    (SMS.destroySendingService Sample.smsReady) 1 "98765432"
                    [] "Hello world" (Some 1) Sample.world)) = []
  /\ SMS.setSendingService Sample.env Sample.cfg
       (SMS.destroySendingService Sample.smsReady) "twilio"
     = (Resolved tt, Sample.smsReady).
Proof.
  destruct (teardown_ends_the_session Sample.env Sample.cfg Sample.smsReady)
    as (Hquiet & _ & Hagain).
  split; [reflexivity | split].
  - exact (Hquiet 1 "98765432" [] "Hello world" (Some 1) Sample.world).
  - rewrite (Hagain "twilio" Sample.credentials eq_refl). reflexivity.
Defined.

(** X16: the email worker's mail client is fixed when the worker is built.
    The constructor gives it the configured [mailFrom] as its sender exactly
    when [emailFallback.activate] is set at that moment; [sendMessage] does
    not read that flag, so a later change of it changes nothing, and every
    mail goes through the client of the constructor.  [setSendingService]
    and [destroySendingService] leave the worker as it is, whatever the
    credential name, and never fail. *)
Theorem mail_client_is_fixed_at_construction (cfg0 : Config)
    (workerId : string) :
  mc_defaultFrom (Email.mailService (Email.new cfg0 workerId))
  = (if emailFallback_activate cfg0 then Some (mailFrom cfg0) else None)
  /\ forall (env : Environment) (cfg : Config) (flag : bool) (m : Message)
            (w : World) (name : string),
       Email.sendMessage env (with_emailFallback flag cfg)
                         (Email.new cfg0 workerId) m w
       = Email.sendMessage env cfg (Email.new cfg0 workerId) m w
       /\ Forall (fun call =>
                    exists mail,
                      call = MailSend (Email.mailService
                                         (Email.new cfg0 workerId)) mail)
                 (transport_calls env cfg
                    (EmailCall (Email.new cfg0 workerId) m))
       /\ outbox (snd (Email.sendMessage env cfg (Email.new cfg0 workerId)
                         m w))
          = (outbox w
               ++ transport_calls env cfg
                    (EmailCall (Email.new cfg0 workerId) m))%list
       /\ Email.setSendingService (Email.new cfg0 workerId) name
          = (Resolved tt, Email.new cfg0 workerId)
       /\ Email.destroySendingService (Email.new cfg0 workerId)
          = Email.new cfg0 workerId.
Proof.
  split; [reflexivity |].
  intros env cfg flag m w name.
  split; [reflexivity | split; [| split; [| now split]]].
  - simpl. destruct (rendered_mail env cfg m) as [mail|e]; constructor;
      [now exists mail | constructor].
  - exact (sendMessage_outbox env cfg (EmailCall (Email.new cfg0 workerId) m)
             w).
Qed.

(** ** The confirm dialog *)

Lemma closed_dialog_ignores_clicks (feedbackUrl : option string)
    (email : string) (cs : list ConfirmModal.Click)
    (st : ConfirmModal.State) :
  ConfirmModal.content st <> ConfirmModal.ConfirmDialog ->
  ConfirmModal.clicks feedbackUrl email cs st = st.
Proof.
  unfold ConfirmModal.clicks. revert st.
  induction cs as [|c cs IH]; intros st Hgone; simpl; [reflexivity |].
  assert (Hstep : ConfirmModal.click feedbackUrl email c st = st).
  { unfold ConfirmModal.click.
    destruct (ConfirmModal.content st); [now destruct Hgone | easy | easy]. }
  rewrite Hstep. now apply IH.
Qed.

Lemma failed_click (feedbackUrl : option string) (email : string)
    (c : ConfirmModal.Click) (msg shown : string) :
  ConfirmModal.failure c = Some msg ->
  ConfirmModal.click feedbackUrl email c
    (ConfirmModal.mkState ConfirmModal.ConfirmDialog shown)
  = ConfirmModal.mkState ConfirmModal.ConfirmDialog msg.
Proof.
  destruct c as [[u|err]|[[u|err]|]]; simpl; intros H; try discriminate;
    now injection H as <-.
Qed.

Lemma successful_click (feedbackUrl : option string) (email : string)
    (c : ConfirmModal.Click) (shown : string) :
  ConfirmModal.failure c = None ->
  ConfirmModal.click feedbackUrl email c
    (ConfirmModal.mkState ConfirmModal.ConfirmDialog shown)
  = ConfirmModal.mkState ConfirmModal.Closed shown
  \/ exists u,
       c = ConfirmModal.ClickConfirm (Resolved tt)
       /\ feedbackUrl = Some u /\ truthy u = true
       /\ ConfirmModal.click feedbackUrl email c
            (ConfirmModal.mkState ConfirmModal.ConfirmDialog shown)
          = ConfirmModal.mkState (ConfirmModal.FeedbackModal (u ++ email))
                                 shown.
Proof.
  destruct c as [[[]|err]|[[u|err]|]]; simpl; intros H; try discriminate;
    try (now left).
  destruct feedbackUrl as [u|]; [| now left].
  unfold ConfirmModal.click, ConfirmModal.onConfirmedClicked. simpl.
  destruct (truthy u) eqn:Hu; [right | now left].
  now exists u.
Qed.

(** X17: the confirm dialog stays on screen exactly as long as the callbacks
    behind its buttons throw.  Clicks reach [onConfirmedClicked] and
    [onCancelClicked] while the dialog is what the modal context shows.  For
    every sequence of clicks: if every callback threw, the dialog is still
    shown with the message of the last failure (the message it had, when
    there was no click); otherwise it is gone.  The feedback modal is shown
    only after a confirm whose callback returned, with a non-empty
    [feedbackUrl], and its url is [feedbackUrl] followed by the user's email;
    cancelling never opens it. *)
Theorem dialog_stays_until_a_callback_succeeds (feedbackUrl : option string)
    (email : string) (cs : list ConfirmModal.Click) (shown : string) :
  (match ConfirmModal.last_failure cs shown with
   | Some msg =>
       ConfirmModal.clicks feedbackUrl email cs
         (ConfirmModal.mkState ConfirmModal.ConfirmDialog shown)
       = ConfirmModal.mkState ConfirmModal.ConfirmDialog msg
   | None =>
       ConfirmModal.content
         (ConfirmModal.clicks feedbackUrl email cs
            (ConfirmModal.mkState ConfirmModal.ConfirmDialog shown))
       <> ConfirmModal.ConfirmDialog
   end)
  /\ forall url : string,
       ConfirmModal.content
         (ConfirmModal.clicks feedbackUrl email cs
            (ConfirmModal.mkState ConfirmModal.ConfirmDialog shown))
       = ConfirmModal.FeedbackModal url ->
       exists u,
         feedbackUrl = Some u /\ truthy u = true /\ url = u ++ email
         /\ In (ConfirmModal.ClickConfirm (Resolved tt)) cs.
Proof.
  revert shown. induction cs as [|c cs IH]; intros shown.
  - split; [reflexivity | intros url H; discriminate H].
  - change (ConfirmModal.clicks feedbackUrl email (c :: cs)
              (ConfirmModal.mkState ConfirmModal.ConfirmDialog shown))
      with (ConfirmModal.clicks feedbackUrl email cs
              (ConfirmModal.click feedbackUrl email c
                 (ConfirmModal.mkState ConfirmModal.ConfirmDialog shown))).
    simpl ConfirmModal.last_failure.
    destruct (ConfirmModal.failure c) as [msg|] eqn:Hc.
    + rewrite (failed_click feedbackUrl email c msg shown Hc).
      destruct (IH msg) as [Hshown Hfeedback].
      split; [exact Hshown |].
      intros url Hurl. destruct (Hfeedback url Hurl) as (u & ? & ? & ? & ?).
      exists u. repeat split; try assumption. now right.
    + destruct (successful_click feedbackUrl email c shown Hc)
        as [Hclosed | (u & -> & Hf & Hu & Hopen)].
      * rewrite Hclosed, closed_dialog_ignores_clicks by easy.
        split; [easy | intros url H; discriminate H].
      * rewrite Hopen, closed_dialog_ignores_clicks by easy.
        split; [easy |].
        intros url H. injection H as <-.
        exists u. repeat split; try assumption. now left.
Qed.
